(** * The OpenFaaS gateway client of rabbitmq-connector

    A shallow embedding of [pkg/openfaas] (the [Client] type with its
    operations [InvokeSync], [InvokeAsync], [HasNamespaceSupport],
    [GetNamespaces] and [GetFunctions]) together with the parts of the Go
    standard library the client calls: request construction, query
    encoding, the response body stream, and [encoding/json] for a
    [[]string] target. *)

From Stdlib Require Import ZArith NArith Lia List Bool.
From Stdlib Require Import Strings.String Strings.Ascii Strings.Byte.
From Stdlib Require Import Numbers.DecimalString Numbers.DecimalZ Numbers.DecimalPos.
From stdpp Require Import base option list gmap strings sorting.

#[local] Set Warnings "-register-all".
Local Open Scope string_scope.
Local Open Scope Z_scope.

(** ** Go values *)

(** A [[]byte]; the nil slice and the empty slice are both [[]]. *)
Abbreviation bytes := (list byte).

(** Go's [error] values, as far as the client builds or receives them.
    [errors_Wrap] is [errors.Wrap]/[errors.Wrapf] of github.com/pkg/errors. *)
Inductive error : Type :=
| errors_New (msg : string)
| errors_Wrap (cause : error) (msg : string)
| json_SyntaxError
| json_UnmarshalTypeError (Value : string)
| http_ErrBodyReadAfterClose.

(** [fmt.Sprintf("%d", n)]. *)
Definition fmt_d (n : Z) : string := NilZero.string_of_int (Z.to_int n).

(** ** Panics and the outcome of a call *)

(** The only run-time panic the client can raise: a nil pointer (or nil
    interface) dereference; [site] names the expression that dereferences. *)
Inductive PanicCause : Type :=
| NilDereference (site : string).

Inductive Outcome (A : Type) : Type :=
| Returns (a : A)
| Panics (p : PanicCause).
Arguments Returns {A} a.
Arguments Panics {A} p.

#[export] Instance Outcome_ret : MRet Outcome := @Returns.
#[export] Instance Outcome_bind : MBind Outcome := fun A B f m =>
  match m with
  | Returns a => f a
  | Panics p => Panics p
  end.

(** Dereferencing a Go pointer. *)
Definition deref {A} (site : string) (p : option A) : Outcome A :=
  match p with
  | Some a => Returns a
  | None => Panics (NilDereference site)
  end.

(** ** encoding/json: the scanner *)

(** The decoder is modelled in two layers, as [json.Unmarshal] works:
    [checkValid] scans the whole input against the JSON grammar before
    anything is stored, then the value is decoded into the target.  The
    scanner below yields the syntax tree the second layer walks. *)

Inductive JSON : Type :=
| JNull
| JBool (b : bool)
| JNumber (lit : bytes)
| JString (s : string)
| JArray (elems : list JSON)
| JObject (members : list (string * JSON)).

Definition code (b : byte) : N := Byte.to_N b.

Definition byte_of (n : N) : byte :=
  match Byte.of_N n with
  | Some b => b
  | None => x00
  end.

Definition isc (c : byte) (lit : string) : bool :=
  match list_byte_of_string lit with
  | [l] => Byte.eqb c l
  | _ => false
  end.

(** The double quote, byte 34. *)
Definition isQuote (c : byte) : bool := (code c =? 34)%N.

(** [isSpace]: space, tab, carriage return, newline. *)
Definition isSpace (c : byte) : bool :=
  (code c =? 32)%N || (code c =? 9)%N || (code c =? 13)%N || (code c =? 10)%N.

Fixpoint skip_space (s : bytes) : bytes :=
  match s with
  | c :: r => if isSpace c then skip_space r else s
  | [] => []
  end.

Definition isDigit (c : byte) : bool := (48 <=? code c)%N && (code c <=? 57)%N.

Definition isHex (c : byte) : bool :=
  isDigit c || ((97 <=? code c)%N && (code c <=? 102)%N)
            || ((65 <=? code c)%N && (code c <=? 70)%N).

Definition hexval (c : byte) : N :=
  if isDigit c then code c - 48
  else if (97 <=? code c)%N then code c - 87
  else code c - 55.

Fixpoint skip_digits (s : bytes) : bytes :=
  match s with
  | c :: r => if isDigit c then skip_digits r else s
  | [] => []
  end.

(** One or more digits. *)
Definition digits1 (s : bytes) : option bytes :=
  match s with
  | c :: r => if isDigit c then Some (skip_digits r) else None
  | [] => None
  end.

(** The scanner states [stateNeg], [state0], [state1], [stateDot],
    [stateDot0], [stateE], [stateESign], [stateE0]: the input after the
    number literal at the head of [s], if there is one. *)
Definition scan_int (s : bytes) : option bytes :=
  match s with
  | c :: r =>
      if isc c "0" then Some r
      else if isDigit c then Some (skip_digits r)
      else None
  | [] => None
  end.

Definition scan_frac (s : bytes) : option bytes :=
  match s with
  | c :: r => if isc c "." then digits1 r else Some s
  | [] => Some s
  end.

Definition scan_exp (s : bytes) : option bytes :=
  match s with
  | c :: r =>
      if isc c "e" || isc c "E" then
        match r with
        | d :: r' => if isc d "+" || isc d "-" then digits1 r' else digits1 r
        | [] => None
        end
      else Some s
  | [] => Some s
  end.

Definition scan_number (s : bytes) : option bytes :=
  let s1 := match s with
            | c :: r => if isc c "-" then r else s
            | [] => s
            end in
  s2 ← scan_int s1; s3 ← scan_frac s2; scan_exp s3.

(** The scanner states [stateInString], [stateInStringEsc] and
    [stateInStringEscU]..: [s] is the input after the opening quote; the
    result is the still escaped text up to the closing quote and the input
    after it. *)
Fixpoint scan_string (s : bytes) : option (bytes * bytes) :=
  match s with
  | [] => None
  | c :: r =>
      if isQuote c then Some ([], r)
      else if isc c "\" then
        match r with
        | e :: r1 =>
            if isc e "b" || isc e "f" || isc e "n" || isc e "r" || isc e "t"
               || isc e "\" || isc e "/" || isQuote e then
              '(raw, rest) ← scan_string r1; Some (c :: e :: raw, rest)
            else if isc e "u" then
              match r1 with
              | h1 :: h2 :: h3 :: h4 :: r2 =>
                  if isHex h1 && isHex h2 && isHex h3 && isHex h4 then
                    '(raw, rest) ← scan_string r2;
                    Some (c :: e :: h1 :: h2 :: h3 :: h4 :: raw, rest)
                  else None
              | _ => None
              end
            else None
        | [] => None
        end
      else if (code c <? 32)%N then None
      else '(raw, rest) ← scan_string r; Some (c :: raw, rest)
  end.

(** ** encoding/json: unquoting string literals *)

Definition in_range (lo hi : N) (c : byte) : bool :=
  (lo <=? code c)%N && (code c <=? hi)%N.

(** [utf8.DecodeRune] at a first byte [c >= 0x80] followed by [r]: the
    length of the well-formed encoding that starts there, or 1 when there
    is none (the byte is then read as [utf8.RuneError]). *)
Definition utf8_size (c : byte) (r : bytes) : nat :=
  let cont := in_range 128 191 in
  let two lo hi :=
    match r with
    | b1 :: _ => if in_range lo hi b1 then 2%nat else 1%nat
    | _ => 1%nat
    end in
  let three lo hi :=
    match r with
    | b1 :: b2 :: _ => if in_range lo hi b1 && cont b2 then 3%nat else 1%nat
    | _ => 1%nat
    end in
  let four lo hi :=
    match r with
    | b1 :: b2 :: b3 :: _ =>
        if in_range lo hi b1 && cont b2 && cont b3 then 4%nat else 1%nat
    | _ => 1%nat
    end in
  let n := code c in
  if (n <? 194)%N then 1%nat
  else if (n <=? 223)%N then two 128%N 191%N
  else if (n =? 224)%N then three 160%N 191%N
  else if (n =? 237)%N then three 128%N 159%N
  else if (n <=? 239)%N then three 128%N 191%N
  else if (n =? 240)%N then four 144%N 191%N
  else if (n <=? 243)%N then four 128%N 191%N
  else if (n =? 244)%N then four 128%N 143%N
  else 1%nat.

(** [unicode.ReplacementChar], U+FFFD. *)
Definition ReplacementChar : N := 65533.

Definition isSurrogate (r : N) : bool := (55296 <=? r)%N && (r <? 57344)%N.

(** [utf8.EncodeRune]. *)
Definition utf8_EncodeRune (r : N) : bytes :=
  (if r <=? 127 then [byte_of r]
   else if r <=? 2047 then [byte_of (192 + r / 64); byte_of (128 + r mod 64)]
   else if (1114111 <? r) || isSurrogate r then [xef; xbf; xbd]
   else if r <=? 65535 then
     [byte_of (224 + r / 4096); byte_of (128 + (r / 64) mod 64);
      byte_of (128 + r mod 64)]
   else
     [byte_of (240 + r / 262144); byte_of (128 + (r / 4096) mod 64);
      byte_of (128 + (r / 64) mod 64); byte_of (128 + r mod 64)])%N.

(** [utf16.DecodeRune]. *)
Definition utf16_DecodeRune (r1 r2 : N) : N :=
  (if (55296 <=? r1) && (r1 <? 56320) && (56320 <=? r2) && (r2 <? 57344)
   then (r1 - 55296) * 1024 + (r2 - 56320) + 65536
   else ReplacementChar)%N.

Definition hex4 (h1 h2 h3 h4 : byte) : N :=
  (((hexval h1 * 16 + hexval h2) * 16 + hexval h3) * 16 + hexval h4)%N.

(** [getu4]: the code unit of a [\uXXXX] escape at the head of [s]. *)
Definition getu4 (s : bytes) : option N :=
  match s with
  | b1 :: b2 :: h1 :: h2 :: h3 :: h4 :: _ =>
      if isc b1 "\" && isc b2 "u" && isHex h1 && isHex h2 && isHex h3 && isHex h4
      then Some (hex4 h1 h2 h3 h4) else None
  | _ => None
  end.

Definition unescape (e : byte) : byte :=
  if isc e "b" then x08
  else if isc e "f" then x0c
  else if isc e "n" then x0a
  else if isc e "r" then x0d
  else if isc e "t" then x09
  else e.

(** [unquoteBytes] on the text between the quotes of a scanned literal.
    [copy] counts the continuation bytes of a well-formed UTF-8 sequence
    still to be copied through unchanged. *)
Fixpoint unquoteBytes (s : bytes) (copy : nat) : bytes :=
  match s with
  | [] => []
  | c :: r =>
      match copy with
      | S k => c :: unquoteBytes r k
      | O =>
          if isc c "\" then
            match r with
            | [] => []
            | e :: r1 =>
                if isc e "u" then
                  match r1 with
                  | h1 :: h2 :: h3 :: h4 :: r2 =>
                      let rr := hex4 h1 h2 h3 h4 in
                      if isSurrogate rr then
                        match r2 with
                        | _ :: _ :: _ :: _ :: _ :: _ :: r3 =>
                            match getu4 r2 with
                            | Some rr1 =>
                                let dec := utf16_DecodeRune rr rr1 in
                                if (dec =? ReplacementChar)%N
                                then utf8_EncodeRune ReplacementChar ++ unquoteBytes r2 0
                                else utf8_EncodeRune dec ++ unquoteBytes r3 0
                            | None => utf8_EncodeRune ReplacementChar ++ unquoteBytes r2 0
                            end
                        | _ => utf8_EncodeRune ReplacementChar ++ unquoteBytes r2 0
                        end
                      else utf8_EncodeRune rr ++ unquoteBytes r2 0
                  | _ => []
                  end
                else unescape e :: unquoteBytes r1 0
            end
          else if (code c <? 128)%N then c :: unquoteBytes r 0
          else
            match utf8_size c r with
            | S (S k) => c :: unquoteBytes r (S k)
            | _ => utf8_EncodeRune ReplacementChar ++ unquoteBytes r 0
            end
      end
  end.

Definition unquote (raw : bytes) : string :=
  string_of_list_byte (unquoteBytes raw 0).

(** ** encoding/json: values *)

Inductive Parse (A : Type) : Type :=
| Parsed (a : A) (rest : bytes)
| Invalid
| OutOfFuel.
Arguments Parsed {A} a rest.
Arguments Invalid {A}.
Arguments OutOfFuel {A}.

(** The scanner refuses input nested deeper than this (Go 1.15 and
    later). *)
Definition maxNestingDepth : N := 10000.

(** [prefix_of s rest]: the part of [s] in front of its suffix [rest]. *)
Definition prefix_of (s rest : bytes) : bytes :=
  take (length s - length rest) s.

(** [strip l s]: [s] without its prefix [l], when it has that prefix. *)
Fixpoint strip (l s : bytes) : option bytes :=
  match l, s with
  | [], _ => Some s
  | a :: l', b :: s' => if Byte.eqb a b then strip l' s' else None
  | _ :: _, [] => None
  end.

Definition scan_literal (lit : string) (v : JSON) (s : bytes) : Parse JSON :=
  match strip (list_byte_of_string lit) s with
  | Some rest => Parsed v rest
  | None => Invalid
  end.

(** One JSON value at the head of [s] (no space in front of it), read at
    nesting depth [depth]; [parse_elements] reads the elements of an array
    after its opening bracket, [parse_members] the members of an object. *)
Fixpoint parse_value (fuel : nat) (depth : N) (s : bytes) : Parse JSON :=
  match fuel with
  | O => OutOfFuel
  | S fuel =>
      match s with
      | [] => Invalid
      | c :: r =>
          if isc c "[" then
            if (maxNestingDepth <? depth + 1)%N then Invalid
            else
              match skip_space r with
              | [] => Invalid
              | c' :: r' =>
                  if isc c' "]" then Parsed (JArray []) r'
                  else parse_elements fuel (depth + 1)%N (c' :: r') []
              end
          else if isc c "{" then
            if (maxNestingDepth <? depth + 1)%N then Invalid
            else
              match skip_space r with
              | [] => Invalid
              | c' :: r' =>
                  if isc c' "}" then Parsed (JObject []) r'
                  else parse_members fuel (depth + 1)%N (c' :: r') []
              end
          else if isQuote c then
            match scan_string r with
            | Some (raw, rest) => Parsed (JString (unquote raw)) rest
            | None => Invalid
            end
          else if isc c "-" || isDigit c then
            match scan_number s with
            | Some rest => Parsed (JNumber (prefix_of s rest)) rest
            | None => Invalid
            end
          else if isc c "t" then scan_literal "true" (JBool true) s
          else if isc c "f" then scan_literal "false" (JBool false) s
          else if isc c "n" then scan_literal "null" JNull s
          else Invalid
      end
  end
with parse_elements (fuel : nat) (depth : N) (s : bytes) (acc : list JSON)
  : Parse JSON :=
  match fuel with
  | O => OutOfFuel
  | S fuel =>
      match parse_value fuel depth s with
      | Parsed v r =>
          match skip_space r with
          | [] => Invalid
          | c :: r' =>
              if isc c "," then
                parse_elements fuel depth (skip_space r') (v :: acc)
              else if isc c "]" then Parsed (JArray (rev (v :: acc))) r'
              else Invalid
          end
      | Invalid => Invalid
      | OutOfFuel => OutOfFuel
      end
  end
with parse_members (fuel : nat) (depth : N) (s : bytes)
                   (acc : list (string * JSON)) : Parse JSON :=
  match fuel with
  | O => OutOfFuel
  | S fuel =>
      match s with
      | [] => Invalid
      | q :: r0 =>
          if isQuote q then
            match scan_string r0 with
            | None => Invalid
            | Some (raw, r1) =>
                match skip_space r1 with
                | [] => Invalid
                | c :: r2 =>
                    if isc c ":" then
                      match parse_value fuel depth (skip_space r2) with
                      | Parsed v r3 =>
                          match skip_space r3 with
                          | [] => Invalid
                          | c' :: r4 =>
                              if isc c' "," then
                                parse_members fuel depth (skip_space r4)
                                  ((unquote raw, v) :: acc)
                              else if isc c' "}" then
                                Parsed (JObject (rev ((unquote raw, v) :: acc))) r4
                              else Invalid
                          end
                      | Invalid => Invalid
                      | OutOfFuel => OutOfFuel
                      end
                    else Invalid
                end
            end
          else Invalid
      end
  end.

(** [checkValid] and the scan of the top-level value: the whole input is
    one JSON value with nothing but space around it. *)
Definition json_parse (data : bytes) : option JSON :=
  match parse_value (2 * length data + 2) 0 (skip_space data) with
  | Parsed v rest =>
      match skip_space rest with
      | [] => Some v
      | _ => None
      end
  | _ => None
  end.

(** ** encoding/json: decoding into a [[]string] *)

(** [literalStore], [array] and [object] with a [string] target, the slot
    being a fresh element of the slice ([""]): a string is stored, [null]
    leaves the slot as it is, any other value records an
    [UnmarshalTypeError] and leaves the slot as it is. *)
Definition decode_element (v : JSON) : string * option error :=
  match v with
  | JString s => (s, None)
  | JNull => ("", None)
  | JBool _ => ("", Some (json_UnmarshalTypeError "bool"))
  | JNumber _ => ("", Some (json_UnmarshalTypeError "number"))
  | JArray _ => ("", Some (json_UnmarshalTypeError "array"))
  | JObject _ => ("", Some (json_UnmarshalTypeError "object"))
  end.

(** [saveError] keeps the earliest error. *)
Fixpoint savedError (errs : list (option error)) : option error :=
  match errs with
  | [] => None
  | Some e :: _ => Some e
  | None :: rest => savedError rest
  end.

(** The value decoded into a nil [[]string]: an array is decoded element
    by element to its end, whatever errors its elements record ("Unmarshal
    skips that field and completes the unmarshaling as best it can", and
    returns the earliest such error); [null] stores the nil slice; any
    other value records an error and stores nothing. *)
Definition decode_strings (v : JSON) : list string * option error :=
  match v with
  | JArray elems =>
      (fst <$> (decode_element <$> elems),
       savedError (snd <$> (decode_element <$> elems)))
  | JNull => ([], None)
  | JBool _ => ([], Some (json_UnmarshalTypeError "bool"))
  | JNumber _ => ([], Some (json_UnmarshalTypeError "number"))
  | JString _ => ([], Some (json_UnmarshalTypeError "string"))
  | JObject _ => ([], Some (json_UnmarshalTypeError "object"))
  end.

(** [json.Unmarshal(data, &namespaces)] with [var namespaces []string]:
    what is left in [namespaces], and the error returned. *)
Definition json_Unmarshal_strings (data : bytes) : list string * option error :=
  match json_parse data with
  | None => ([], Some json_SyntaxError)
  | Some v => decode_strings v
  end.

(** ** net/url *)

Record URL : Type := mkURL {
  URL_Scheme : string;
  URL_Host : string;
  URL_Path : string;
  URL_RawQuery : string;
  URL_Fragment : string
}.

Definition URL_set_RawQuery (u : URL) (q : string) : URL :=
  mkURL (URL_Scheme u) (URL_Host u) (URL_Path u) q (URL_Fragment u).

(** [url.Values], a [map[string][]string]. *)
Abbreviation Values := (gmap string (list string)).

(** [Values.Add]: [v[key] = append(v[key], value)]. *)
Definition Values_Add (v : Values) (key value : string) : Values :=
  <[key := ((v !!! key) ++ [value])%list]> v.

Definition upperhex (n : N) : ascii :=
  if (n <? 10)%N then ascii_of_N (48 + n) else ascii_of_N (55 + n).

(** [shouldEscape(c, encodeQueryComponent)]: letters, digits and
    [-], [_], [.], [~] pass, every other byte is escaped. *)
Definition shouldEscape (c : ascii) : bool :=
  let n := N_of_ascii c in
  negb (((97 <=? n) && (n <=? 122) || (65 <=? n) && (n <=? 90)
         || (48 <=? n) && (n <=? 57))%N
        || (n =? 45)%N || (n =? 95)%N || (n =? 46)%N || (n =? 126)%N).

(** [url.QueryEscape]. *)
Fixpoint QueryEscape (s : string) : string :=
  match s with
  | EmptyString => EmptyString
  | String c r =>
      if shouldEscape c then
        if (N_of_ascii c =? 32)%N then String "+" (QueryEscape r)
        else String "%" (String (upperhex (N_of_ascii c / 16))
                           (String (upperhex (N_of_ascii c mod 16)) (QueryEscape r)))
      else String c (QueryEscape r)
  end.

(** Go compares strings bytewise. *)
Definition string_le (a b : string) : Prop := String.leb a b = true.

#[export] Instance string_le_dec : RelDecision string_le.
Proof. intros a b. unfold string_le. apply _. Defined.

(** [sort.Strings]. *)
Definition sort_Strings (l : list string) : list string := merge_sort string_le l.

(** [Values.Encode]: the pairs [key=value], escaped, sorted by key and
    joined by [&]. *)
Definition Values_Encode (v : Values) : string :=
  let keys := sort_Strings (fst <$> map_to_list v) in
  foldl (fun buf k =>
           foldl (fun buf x =>
                    (if bool_decide (buf = "") then buf else buf +:+ "&")
                      +:+ QueryEscape k +:+ "=" +:+ QueryEscape x)
                 buf (v !!! k))
        "" keys.

(** ** net/http: requests, responses, the transport *)

(** A [context.Context]: the nil interface, or a context whose [Err()] is
    nil (live), [Canceled] or [DeadlineExceeded]. *)
Inductive Context : Type :=
| nilContext
| liveContext (Err : option error).

Record Request : Type := mkRequest {
  Request_ctx : Context;
  Request_Method : string;
  Request_URL : URL;
  Request_Header : gmap string (list string);
  Request_Body : option bytes
}.

Definition Request_set_Header (r : Request) (h : gmap string (list string)) : Request :=
  mkRequest (Request_ctx r) (Request_Method r) (Request_URL r) h (Request_Body r).

Definition Request_set_URL (r : Request) (u : URL) : Request :=
  mkRequest (Request_ctx r) (Request_Method r) u (Request_Header r) (Request_Body r).

(** The body of a response as the transport hands it over: the bytes the
    stream delivers, and the error it ends with in place of EOF, if any. *)
Record BodyStream : Type := mkBodyStream {
  content : bytes;
  failure : option error
}.

Record Response : Type := mkResponse {
  Response_StatusCode : Z;
  Response_Body : option BodyStream
}.

(** [Do] of [http.Client] on a request: the gateway and the network.  [Do]
    returns an error, or a response with a body (it puts an empty one in
    place of a missing one); the type has more answers than these, and
    [keeps_contract] further down tells the ones of [Do] from the rest. *)
Definition HttpClient : Type := Request -> option Response * option error.

(** What the client takes from the libraries it is linked with. *)
Class GoLib : Type := {
  (** [types.FunctionStatus] of faas-provider. *)
  FunctionStatus : Type;
  (** [url.Parse], with the empty port removed from the host as
      [http.NewRequestWithContext] does. *)
  url_Parse : string -> URL + error;
  (** [url.ParseQuery]; [URL.Query] drops its error. *)
  url_ParseQuery : string -> Values;
  url_ParseQuery_empty : url_ParseQuery "" = ∅;
  (** [basicAuth] of net/http: base64 of [user:password]. *)
  basicAuth : string -> string -> string;
  (** [json.Unmarshal(data, &functions)] with
      [var functions []types.FunctionStatus]. *)
  json_Unmarshal_functions : bytes -> list FunctionStatus * option error
}.

(** [URL.Query]. *)
Definition URL_Query `{GoLib} (u : URL) : Values := url_ParseQuery (URL_RawQuery u).

(** [http.NewRequestWithContext] for the methods GET and POST. *)
Definition http_NewRequestWithContext `{GoLib}
    (ctx : Context) (method url : string) (body : option bytes)
  : option Request * option error :=
  match ctx with
  | nilContext => (None, Some (errors_New "net/http: nil Context"))
  | liveContext _ =>
      match url_Parse url with
      | inr e => (None, Some e)
      | inl u => (Some (mkRequest ctx method u ∅ body), None)
      end
  end.

(** [req.Header.Set(key, value)]; the keys the client uses are in
    canonical form already. *)
Definition Header_Set (req : option Request) (key value : string)
  : Outcome (option Request) :=
  r ← deref "req.Header" req;
  mret (Some (Request_set_Header r (<[key := [value]]> (Request_Header r)))).

(** [req.SetBasicAuth(username, password)]. *)
Definition SetBasicAuth `{GoLib} (req : option Request) (username password : string)
  : Outcome (option Request) :=
  r ← deref "req.SetBasicAuth" req;
  mret (Some (Request_set_Header r
                (<["Authorization" := ["Basic " +:+ basicAuth username password]]>
                   (Request_Header r)))).

(** ** The running call: the wire and the response body stream *)

(** The state of the stream behind [res.Body]. *)
Record ReadCloser : Type := mkReadCloser {
  unread : bytes;
  read_failure : option error;
  closed : bool
}.

Record World : Type := mkWorld {
  (** the requests handed to the transport, in order *)
  wire : list Request;
  (** the stream behind [res.Body]; [None] when [res.Body] is nil or no
      response was received *)
  resBody : option ReadCloser
}.

Definition World0 : World := mkWorld [] None.

Definition M (A : Type) : Type := World -> Outcome A * World.

#[export] Instance M_ret : MRet M := fun A a w => (Returns a, w).
#[export] Instance M_bind : MBind M := fun A B f m w =>
  match m w with
  | (Returns a, w') => f a w'
  | (Panics p, w') => (Panics p, w')
  end.

Definition lift {A} (o : Outcome A) : M A := fun w => (o, w).

(** [defer d] in front of [body]: [d] runs when the function leaves
    [body], by return or by panic. *)
Definition defer {A} (d : M unit) (body : M A) : M A := fun w =>
  let '(o, w1) := body w in
  let '(od, w2) := d w1 in
  (match od with
   | Panics p => Panics p
   | Returns _ => o
   end, w2).

Definition defer_if {A} (cond : bool) (d : M unit) (body : M A) : M A :=
  if cond then defer d body else body.

(** [c.client.Do(req)].  [Do] reads [req.URL] first.  When it returns an
    error, the body of a response it still returns is closed already. *)
Definition Client_Do (cl : HttpClient) (req : option Request)
  : M (option Response * option error) := fun w =>
  match req with
  | None => (Panics (NilDereference "req.URL"), w)
  | Some r =>
      let '(res, err) := cl r in
      (Returns (res, err),
       mkWorld (wire w ++ [r])
               (b ← res ≫= Response_Body;
                Some (mkReadCloser (content b) (failure b)
                                   (bool_decide (err ≠ None)))))
  end.

(** [ioutil.ReadAll(res.Body)]: everything the stream delivers, and the
    error it ended with. *)
Definition ioutil_ReadAll : M (bytes * option error) := fun w =>
  match resBody w with
  | None => (Panics (NilDereference "res.Body.Read"), w)
  | Some rc =>
      if closed rc then (Returns ([], Some http_ErrBodyReadAfterClose), w)
      else (Returns (unread rc, read_failure rc),
            mkWorld (wire w) (Some (mkReadCloser [] (read_failure rc) false)))
  end.

(** [res.Body.Close()]. *)
Definition Body_Close : M unit := fun w =>
  match resBody w with
  | None => (Panics (NilDereference "res.Body.Close"), w)
  | Some rc =>
      (Returns tt,
       mkWorld (wire w) (Some (mkReadCloser (unread rc) (read_failure rc) true)))
  end.

(** ** The client *)

(** [auth.BasicAuthCredentials] of faas-provider. *)
Record BasicAuthCredentials : Type := mkBasicAuthCredentials {
  User : string;
  Password : string
}.

(** Modelled from the spec: [types.OpenFaaSInvocation] of the package
    pkg/types is declared outside the sources at hand; the client reads
    the three fields below, [Message] being a pointer to the payload
    (nil: no body). *)
Record OpenFaaSInvocation : Type := mkOpenFaaSInvocation {
  ContentType : string;
  ContentEncoding : string;
  Message : option bytes
}.

Record Client : Type := NewClient {
  client : HttpClient;
  credentials : option BasicAuthCredentials;
  url : string
}.

(** Each operation is written in the order of its source, in three parts:
    the statements that build the request (up to the call of [Do]), the
    call itself, and the statements that handle what [Do] returned.  The
    receiver and the invocation are the values behind the (non-nil)
    pointers. *)

Section Operations.
Context `{GoLib}.

(** *** InvokeSync *)

(** The request [InvokeSync] builds.  The deferred [req.Body.Close()] is
    the closer [NewRequestWithContext] wraps around a [bytes.Reader],
    which does nothing; the test in front of it reads [req.Body]. *)
Definition InvokeSync_request (c : Client) (ctx : Context) (name : string)
    (invocation : OpenFaaSInvocation) : Outcome (option Request) :=
  let functionURL := url c +:+ "/function/" +:+ name in
  let body := Message invocation in
  let '(req, _) := http_NewRequestWithContext ctx "POST" functionURL body in
  req ← Header_Set req "Content-Type" (ContentType invocation);
  req ← Header_Set req "Content-Encoding" (ContentEncoding invocation);
  req ← match credentials c with
        | Some cr => SetBasicAuth req (User cr) (Password cr)
        | None => mret req
        end;
  _ ← deref "req.Body" req;
  mret req.

Definition InvokeSync_response (name : string)
    (res : option Response) (err : option error) : M (bytes * option error) :=
  match err with
  | Some e => mret ([], Some (errors_Wrap e ("unable to invoke function " +:+ name)))
  | None =>
      res ← lift (deref "res.Body" res);
      defer_if (bool_decide (Response_Body res ≠ None)) Body_Close (
        output ← (if bool_decide (Response_Body res ≠ None)
                  then '(output, _) ← ioutil_ReadAll; mret output
                  else mret []);
        let sc := Response_StatusCode res in
        mret (if sc =? 200 then (output, None)
              else if sc =? 401 then
                ([], Some (errors_New "OpenFaaS Credentials are invalid"))
              else if sc =? 404 then
                ([], Some (errors_New ("Function " +:+ name +:+ " is not deployed")))
              else
                ([], Some (errors_New ("Received unexpected Status Code " +:+ fmt_d sc)))))
  end.

Definition InvokeSync (c : Client) (ctx : Context) (name : string)
    (invocation : OpenFaaSInvocation) : M (bytes * option error) :=
  req ← lift (InvokeSync_request c ctx name invocation);
  '(res, err) ← Client_Do (client c) req;
  InvokeSync_response name res err.

(** *** InvokeAsync *)

Definition InvokeAsync_request (c : Client) (ctx : Context) (name : string)
    (invocation : OpenFaaSInvocation) : Outcome (option Request) :=
  let functionURL := url c +:+ "/async-function/" +:+ name in
  let body := Message invocation in
  let '(req, _) := http_NewRequestWithContext ctx "POST" functionURL body in
  req ← Header_Set req "Content-Type" (ContentType invocation);
  req ← Header_Set req "Content-Encoding" (ContentEncoding invocation);
  req ← match credentials c with
        | Some cr => SetBasicAuth req (User cr) (Password cr)
        | None => mret req
        end;
  _ ← deref "req.Body" req;
  mret req.

Definition InvokeAsync_response (name : string)
    (res : option Response) (err : option error) : M (bool * option error) :=
  match err with
  | Some e => mret (false, Some (errors_Wrap e ("unable to invoke function " +:+ name)))
  | None =>
      res ← lift (deref "res.Body" res);
      defer_if (bool_decide (Response_Body res ≠ None)) Body_Close (
        let sc := Response_StatusCode res in
        mret (if sc =? 202 then (true, None)
              else if sc =? 401 then
                (false, Some (errors_New "OpenFaaS Credentials are invalid"))
              else if sc =? 404 then
                (false, Some (errors_New ("Function " +:+ name +:+ " is not deployed")))
              else
                (false, Some (errors_New ("Received unexpected Status Code " +:+ fmt_d sc)))))
  end.

Definition InvokeAsync (c : Client) (ctx : Context) (name : string)
    (invocation : OpenFaaSInvocation) : M (bool * option error) :=
  req ← lift (InvokeAsync_request c ctx name invocation);
  '(res, err) ← Client_Do (client c) req;
  InvokeAsync_response name res err.

(** *** HasNamespaceSupport *)

Definition HasNamespaceSupport_request (c : Client) (ctx : Context)
  : Outcome (option Request) :=
  let getNamespaces := url c +:+ "/system/namespaces" in
  let '(req, _) := http_NewRequestWithContext ctx "GET" getNamespaces None in
  match credentials c with
  | Some cr => SetBasicAuth req (User cr) (Password cr)
  | None => mret req
  end.

Definition HasNamespaceSupport_response
    (res : option Response) (err : option error) : M (bool * option error) :=
  match err with
  | Some e => mret (false, Some (errors_Wrap e "unable to determine namespace support"))
  | None =>
      res ← lift (deref "res.Body" res);
      defer_if (bool_decide (Response_Body res ≠ None)) Body_Close (
        let sc := Response_StatusCode res in
        if sc =? 200 then
          '(resp, _) ← ioutil_ReadAll;
          let '(namespaces, _) := json_Unmarshal_strings resp in
          mret (bool_decide (0 < length namespaces)%nat, None)
        else if sc =? 401 then
          mret (false, Some (errors_New "OpenFaaS Credentials are invalid"))
        else mret (false, None))
  end.

Definition HasNamespaceSupport (c : Client) (ctx : Context) : M (bool * option error) :=
  req ← lift (HasNamespaceSupport_request c ctx);
  '(res, err) ← Client_Do (client c) req;
  HasNamespaceSupport_response res err.

(** *** GetNamespaces *)

Definition GetNamespaces_request (c : Client) (ctx : Context)
  : Outcome (option Request) :=
  let getNamespaces := url c +:+ "/system/namespaces" in
  let '(req, _) := http_NewRequestWithContext ctx "GET" getNamespaces None in
  match credentials c with
  | Some cr => SetBasicAuth req (User cr) (Password cr)
  | None => mret req
  end.

Definition GetNamespaces_response
    (res : option Response) (err : option error) : M (list string * option error) :=
  match err with
  | Some e => mret ([], Some (errors_Wrap e "unable to obtain namespaces"))
  | None =>
      res ← lift (deref "res.Body" res);
      defer_if (bool_decide (Response_Body res ≠ None)) Body_Close (
        '(resp, _) ← ioutil_ReadAll;
        let '(namespaces, err) := json_Unmarshal_strings resp in
        mret (match err with
              | Some _ =>
                  if Response_StatusCode res =? 401 then
                    ([], Some (errors_New "OpenFaaS Credentials are invalid"))
                  else (namespaces, None)
              | None => (namespaces, None)
              end))
  end.

Definition GetNamespaces (c : Client) (ctx : Context) : M (list string * option error) :=
  req ← lift (GetNamespaces_request c ctx);
  '(res, err) ← Client_Do (client c) req;
  GetNamespaces_response res err.

(** *** GetFunctions *)

Definition GetFunctions_request (c : Client) (ctx : Context) (namespace : string)
  : Outcome (option Request) :=
  let getFunctions := url c +:+ "/system/functions" in
  let '(req, _) := http_NewRequestWithContext ctx "GET" getFunctions None in
  req ← match credentials c with
        | Some cr => SetBasicAuth req (User cr) (Password cr)
        | None => mret req
        end;
  if bool_decide (0 < String.length namespace)%nat then
    r ← deref "req.URL" req;
    let q := URL_Query (Request_URL r) in
    let q := Values_Add q "namespace" namespace in
    mret (Some (Request_set_URL r (URL_set_RawQuery (Request_URL r) (Values_Encode q))))
  else mret req.

Definition GetFunctions_response
    (res : option Response) (err : option error)
  : M (list FunctionStatus * option error) :=
  match err with
  | Some e => mret ([], Some (errors_Wrap e "unable to obtain functions"))
  | None =>
      res ← lift (deref "res.Body" res);
      defer_if (bool_decide (Response_Body res ≠ None)) Body_Close (
        '(resp, _) ← ioutil_ReadAll;
        let '(functions, err) := json_Unmarshal_functions resp in
        mret (match err with
              | Some _ =>
                  if Response_StatusCode res =? 401 then
                    ([], Some (errors_New "OpenFaaS Credentials are invalid"))
                  else
                    ([], Some (errors_New ("Received unexpected Status Code "
                                             +:+ fmt_d (Response_StatusCode res))))
              | None => (functions, None)
              end))
  end.

Definition GetFunctions (c : Client) (ctx : Context) (namespace : string)
  : M (list FunctionStatus * option error) :=
  req ← lift (GetFunctions_request c ctx namespace);
  '(res, err) ← Client_Do (client c) req;
  GetFunctions_response res err.

End Operations.

(** A call starts with nothing on the wire and no response. *)
Definition outcome {A} (m : M A) : Outcome A := fst (m World0).
Definition final {A} (m : M A) : World := snd (m World0).

(** ** The classes of error the client reports *)

Definition AuthenticationError : error :=
  errors_New "OpenFaaS Credentials are invalid".

Definition NotFoundError (name : string) : error :=
  errors_New ("Function " +:+ name +:+ " is not deployed").

Definition UnexpectedStatusError (sc : Z) : error :=
  errors_New ("Received unexpected Status Code " +:+ fmt_d sc).

Definition TransportError (cause : error) (annotation : string) : error :=
  errors_Wrap cause annotation.

(** ** What is observed of a call *)

(** The bytes the body of a response delivers. *)
Definition Response_content (res : Response) : bytes :=
  match Response_Body res with
  | Some b => content b
  | None => []
  end.

(** The body stream, if the call was handed one, is closed. *)
Definition released (w : World) : bool :=
  match resBody w with
  | Some rc => closed rc
  | None => true
  end.

(** The body stream, if the call was handed one, was read to its end. *)
Definition drained (w : World) : bool :=
  match resBody w with
  | Some rc => bool_decide (length (unread rc) = 0%nat)
  | None => true
  end.

(** The input is not a JSON list: it is not JSON at all, or its top-level
    value is not an array. *)
Definition not_a_list (data : bytes) : Prop :=
  match json_parse data with
  | Some (JArray _) => False
  | _ => True
  end.

(** The number of occurrences of a byte in a string. *)
Fixpoint occurrences (c : ascii) (s : string) : nat :=
  match s with
  | EmptyString => 0%nat
  | String a r => ((if Ascii.eqb a c then 1 else 0) + occurrences c r)%nat
  end.

(** ** A reference instance of the libraries *)

(** [strings.Cut] at a byte. *)
Fixpoint cut (sep : ascii) (s : string) : string * string :=
  match s with
  | EmptyString => (EmptyString, EmptyString)
  | String c r =>
      if Ascii.eqb c sep then (EmptyString, r)
      else let '(a, b) := cut sep r in (String c a, b)
  end.

Fixpoint split_on (sep : ascii) (s : string) : list string :=
  match s with
  | EmptyString => [EmptyString]
  | String c r =>
      if Ascii.eqb c sep then EmptyString :: split_on sep r
      else
        match split_on sep r with
        | h :: t => String c h :: t
        | [] => [String c EmptyString]
        end
  end.

(** [stringContainsCTLByte]. *)
Fixpoint stringContainsCTLByte (s : string) : bool :=
  match s with
  | EmptyString => false
  | String c r =>
      (N_of_ascii c <? 32)%N || (N_of_ascii c =? 127)%N || stringContainsCTLByte r
  end.

(** Of [url.Parse] the reference instance keeps the split at [#] and [?]
    and the refusal of control bytes; scheme, authority and path stay
    together in [URL_Path]. *)
Definition ref_url_Parse (rawURL : string) : URL + error :=
  let '(u, frag) := cut "#" rawURL in
  if stringContainsCTLByte u then
    inr (errors_New "net/url: invalid control character in URL")
  else
    let '(rest, query) := cut "?" u in
    inl (mkURL EmptyString EmptyString rest query frag).

Definition ishex (c : ascii) : bool :=
  let n := N_of_ascii c in
  ((48 <=? n) && (n <=? 57) || (97 <=? n) && (n <=? 102) || (65 <=? n) && (n <=? 70))%N.

Definition unhex (c : ascii) : N :=
  let n := N_of_ascii c in
  (if n <=? 57 then n - 48 else if 97 <=? n then n - 87 else n - 55)%N.

(** [url.QueryUnescape]. *)
Fixpoint QueryUnescape (s : string) : option string :=
  match s with
  | EmptyString => Some EmptyString
  | String c r =>
      if Ascii.eqb c "%" then
        match r with
        | String h1 (String h2 r') =>
            if ishex h1 && ishex h2 then
              String (ascii_of_N (16 * unhex h1 + unhex h2)) <$> QueryUnescape r'
            else None
        | _ => None
        end
      else if Ascii.eqb c "+" then String " " <$> QueryUnescape r
      else String c <$> QueryUnescape r
  end.

(** [url.ParseQuery] as of Go 1.17: pairs are separated by [&]; a pair
    with a semicolon or a bad escape is left out. *)
Definition ref_ParseQuery (query : string) : Values :=
  foldl (fun (m : Values) (pair : string) =>
           if bool_decide (0 < occurrences ";" pair)%nat then m
           else if bool_decide (pair = EmptyString) then m
           else
             let '(key, value) := cut "=" pair in
             match QueryUnescape key, QueryUnescape value with
             | Some key, Some value => Values_Add m key value
             | _, _ => m
             end)
        ∅ (split_on "&" query).

Definition b64char (n : N) : ascii :=
  (if n <? 26 then ascii_of_N (65 + n)
   else if n <? 52 then ascii_of_N (71 + n)
   else if n <? 62 then ascii_of_N (n - 4)
   else if n =? 62 then "+"%char else "/"%char)%N.

(** [base64.StdEncoding.EncodeToString]. *)
Fixpoint base64 (s : string) : string :=
  match s with
  | EmptyString => EmptyString
  | String a EmptyString =>
      let x := N_of_ascii a in
      String (b64char (x / 4)) (String (b64char (x mod 4 * 16)) "==")
  | String a (String b EmptyString) =>
      let x := N_of_ascii a in
      let y := N_of_ascii b in
      String (b64char (x / 4))
        (String (b64char (x mod 4 * 16 + y / 16))
           (String (b64char (y mod 16 * 4)) "="))
  | String a (String b (String c r)) =>
      let x := N_of_ascii a in
      let y := N_of_ascii b in
      let z := N_of_ascii c in
      String (b64char (x / 4))
        (String (b64char (x mod 4 * 16 + y / 16))
           (String (b64char (y mod 16 * 4 + z / 64))
              (String (b64char (z mod 64)) (base64 r))))
  end.

(** The reference decoder of function records keeps each record as the
    members of its JSON object. *)
Definition ref_decode_function (v : JSON) : list (string * JSON) * option error :=
  match v with
  | JObject members => (members, None)
  | JNull => ([], None)
  | JBool _ => ([], Some (json_UnmarshalTypeError "bool"))
  | JNumber _ => ([], Some (json_UnmarshalTypeError "number"))
  | JString _ => ([], Some (json_UnmarshalTypeError "string"))
  | JArray _ => ([], Some (json_UnmarshalTypeError "array"))
  end.

Definition ref_Unmarshal_functions (data : bytes)
  : list (list (string * JSON)) * option error :=
  match json_parse data with
  | None => ([], Some json_SyntaxError)
  | Some (JArray elems) =>
      (fst <$> (ref_decode_function <$> elems),
       savedError (snd <$> (ref_decode_function <$> elems)))
  | Some JNull => ([], None)
  | Some (JBool _) => ([], Some (json_UnmarshalTypeError "bool"))
  | Some (JNumber _) => ([], Some (json_UnmarshalTypeError "number"))
  | Some (JString _) => ([], Some (json_UnmarshalTypeError "string"))
  | Some (JObject _) => ([], Some (json_UnmarshalTypeError "object"))
  end.

Definition refLib : GoLib := {|
  FunctionStatus := list (string * JSON);
  url_Parse := ref_url_Parse;
  url_ParseQuery := ref_ParseQuery;
  url_ParseQuery_empty := eq_refl;
  basicAuth := fun user password => base64 (user +:+ ":" +:+ password);
  json_Unmarshal_functions := ref_Unmarshal_functions
|}.

(** A gateway that answers every request with the same response. *)
Definition mock_gateway (res : Response) : HttpClient :=
  fun _ => (Some res, None).

(** A transport that fails every request. *)
Definition failing_transport (e : error) : HttpClient :=
  fun _ => (None, Some e).

Definition gateway_says (sc : Z) (body : string) : HttpClient :=
  mock_gateway (mkResponse sc (Some (mkBodyStream (list_byte_of_string body) None))).

Definition Background : Context := liveContext None.

(** ** Inputs of the examples *)

Definition gateway_url : string := "http://gateway:8080".

Definition admin : BasicAuthCredentials := mkBasicAuthCredentials "admin" "secret".

Definition echo_invocation : OpenFaaSInvocation :=
  mkOpenFaaSInvocation "text/plain" "" (Some (list_byte_of_string "ping")).

(** JSON text written with single quotes in place of double quotes. *)
Definition json_text (s : string) : bytes :=
  (fun b => if Byte.eqb b "'" then x22 else b) <$> list_byte_of_string s.

Definition gateway_json (sc : Z) (body : string) : HttpClient :=
  mock_gateway (mkResponse sc (Some (mkBodyStream (json_text body) None))).

(** A function name with a line feed in it. *)
Definition bad_name : string := String (ascii_of_N 10) "echo".

(** ** Package version: release metadata *)

(** The package-level variables of [version]: [Version] and [GitCommit]
    are set by the linker and empty otherwise; the other two start as
    ["dev"] and ["local"]. *)
Record BuildInfo : Type := mkBuildInfo {
  Version : string;
  GitCommit : string;
  DEVVersion : string;
  DEVCommit : string
}.

Definition GetReleaseInfo (g : BuildInfo) : string * string :=
  let sha := DEVCommit g in
  let release := DEVVersion g in
  let sha := if bool_decide (0 < String.length (GitCommit g))%nat
             then GitCommit g else sha in
  let release := if bool_decide (0 < String.length (Version g))%nat
                 then Version g else release in
  (sha, release).

(** ** Transports, for stating what the operations rely on *)

(** What [http.Client.Do] promises: an error, or a response with a body. *)
Definition keeps_contract (ans : option Response * option error) : bool :=
  match ans with
  | (_, Some _) => true
  | (Some r, None) => bool_decide (Response_Body r ≠ None)
  | (None, None) => false
  end.

(** The same transport with body streams that end in EOF, never in a read
    error. *)
Definition without_read_errors (cl : HttpClient) : HttpClient := fun req =>
  let '(res, err) := cl req in
  ((fun r => mkResponse (Response_StatusCode r)
                        ((fun b => mkBodyStream (content b) None) <$> Response_Body r))
     <$> res, err).

(** The headers of a request after [SetBasicAuth], when the client has
    credentials. *)
Definition with_credentials `{GoLib} (c : Client) (h : gmap string (list string))
  : gmap string (list string) :=
  match credentials c with
  | Some cr => <["Authorization" := ["Basic " +:+ basicAuth (User cr) (Password cr)]]> h
  | None => h
  end.

(** What at most one request looks like on the wire. *)
Definition sent (o : Outcome (option Request)) : list Request :=
  match o with
  | Returns (Some req) => [req]
  | _ => []
  end.

(** * Properties *)

(** ** The scanner consumes its input and never runs out of fuel *)

Lemma skip_space_le (s : bytes) : (length (skip_space s) ≤ length s)%nat.
Proof. induction s as [|c r IH]; simpl; [lia|]. destruct (isSpace c); simpl; lia. Qed.

Lemma skip_digits_le (s : bytes) : (length (skip_digits s) ≤ length s)%nat.
Proof. induction s as [|c r IH]; simpl; [lia|]. destruct (isDigit c); simpl; lia. Qed.

Lemma digits1_lt (s r : bytes) : digits1 s = Some r → (length r < length s)%nat.
Proof.
  destruct s as [|c s]; simpl; [done|].
  destruct (isDigit c); [|done]. intros [= <-].
  pose proof (skip_digits_le s). lia.
Qed.

Lemma scan_number_lt (s r : bytes) : scan_number s = Some r → (length r < length s)%nat.
Proof.
  unfold scan_number. intros Hs.
  destruct (scan_int _) as [s2|] eqn:H2; simpl in Hs; [|done].
  destruct (scan_frac s2) as [s3|] eqn:H3; simpl in Hs; [|done].
  assert (length s3 ≤ length s2)%nat as L3.
  { unfold scan_frac in H3. destruct s2 as [|c s2]; [by inversion H3|].
    destruct (isc c "."); [apply digits1_lt in H3; simpl; lia | by inversion H3]. }
  assert (length r ≤ length s3)%nat as L4.
  { unfold scan_exp in Hs. destruct s3 as [|c s3]; [by inversion Hs|].
    destruct (isc c "e" || isc c "E"); [|by inversion Hs].
    destruct s3 as [|d s3]; [done|].
    destruct (isc d "+" || isc d "-"); apply digits1_lt in Hs; simpl in *; lia. }
  assert (∀ t, scan_int t = Some s2 → length s2 < length t)%nat as L2.
  { intros [|c t]; simpl; [done|].
    destruct (isc c "0"); [intros [= <-]; lia|].
    destruct (isDigit c); [|done]. intros [= <-]. pose proof (skip_digits_le t). lia. }
  destruct s as [|c s]; [by apply L2 in H2; simpl in *; lia|].
  destruct (isc c "-"); apply L2 in H2; simpl in *; lia.
Qed.

Lemma scan_string_lt (s raw rest : bytes) :
  scan_string s = Some (raw, rest) → (length rest < length s)%nat.
Proof.
  remember (length s) as n eqn:Hn. revert s raw rest Hn.
  induction n as [n IH] using lt_wf_ind. intros s raw rest -> Hs.
  destruct s as [|c r]; simpl in Hs; [done|].
  repeat case_match; simplify_option_eq; simpl; try lia.
  all: match goal with
    | E : scan_string ?x = Some ?p |- _ =>
        destruct p; simplify_eq;
        eapply (IH (length x)) in E; [| simpl; lia | reflexivity]; simpl in *; lia
    end.
Qed.

Lemma strip_length (l s r : bytes) :
  strip l s = Some r → length s = (length l + length r)%nat.
Proof.
  revert s. induction l as [|a l IH]; intros [|b s]; simpl; try done.
  - by intros [= <-].
  - by intros [= <-].
  - destruct (Byte.eqb a b); [|done]. intros Hs. apply IH in Hs. lia.
Qed.

Lemma scan_literal_lt (lit : string) (v v' : JSON) (s r : bytes) :
  (0 < length (list_byte_of_string lit))%nat →
  scan_literal lit v s = Parsed v' r → (length r < length s)%nat.
Proof.
  unfold scan_literal. intros Hl. destruct (strip _ s) as [rest|] eqn:E; [|done].
  intros [= _ <-]. apply strip_length in E. lia.
Qed.

Ltac note_skip x :=
  lazymatch goal with
  | _ : (length (skip_space x) ≤ length x)%nat |- _ => fail
  | _ => pose proof (skip_space_le x)
  end.

Ltac note_skips :=
  repeat match goal with
    | H : context [skip_space ?x] |- _ => note_skip x
    | |- context [skip_space ?x] => note_skip x
    end.

Ltac length_facts :=
  note_skips;
  repeat match goal with
    | E : skip_space ?x = _ :: _ |- _ => apply (f_equal length) in E; simpl in E
    | E : scan_string _ = Some (_, _) |- _ => apply scan_string_lt in E
    | E : scan_number _ = Some _ |- _ => apply scan_number_lt in E
    | E : scan_literal _ _ _ = Parsed _ _ |- _ =>
        apply scan_literal_lt in E; [| simpl; lia]
    end.

Lemma parse_consumes (fuel : nat) :
  (∀ d s v r, parse_value fuel d s = Parsed v r → (length r < length s)%nat) ∧
  (∀ d s acc v r, parse_elements fuel d s acc = Parsed v r → (length r < length s)%nat) ∧
  (∀ d s acc v r, parse_members fuel d s acc = Parsed v r → (length r < length s)%nat).
Proof.
  induction fuel as [|fuel (IHv & IHe & IHm)]; [by split_and!|].
  split_and!; intros; simpl in *;
    repeat case_match; simplify_eq;
    repeat match goal with
      | E : parse_value fuel _ _ = Parsed _ _ |- _ => apply IHv in E
      | E : parse_elements fuel _ _ _ = Parsed _ _ |- _ => apply IHe in E
      | E : parse_members fuel _ _ _ = Parsed _ _ |- _ => apply IHm in E
      end;
    length_facts; simpl in *; lia.
Qed.

Lemma parse_value_consumes fuel d s v r :
  parse_value fuel d s = Parsed v r → (length r < length s)%nat.
Proof. apply parse_consumes. Qed.

(** With twice the length of the input as fuel, and a little more, the
    scanner reaches a verdict. *)
Lemma parse_fuel_enough (fuel : nat) :
  (∀ d s, (2 * length s < fuel)%nat → parse_value fuel d s ≠ OutOfFuel) ∧
  (∀ d s acc, (2 * length s + 1 < fuel)%nat → parse_elements fuel d s acc ≠ OutOfFuel) ∧
  (∀ d s acc, (2 * length s < fuel)%nat → parse_members fuel d s acc ≠ OutOfFuel).
Proof.
  induction fuel as [|fuel (IHv & IHe & IHm)]; [split_and!; intros; lia|].
  split_and!; intros; simpl in *; unfold scan_literal;
    repeat case_match; simplify_eq; try done;
    repeat match goal with
      | E : parse_value fuel _ _ = Parsed _ _ |- _ => apply parse_value_consumes in E
      end;
    length_facts; simpl in *;
    try first [ apply IHv | apply IHe | apply IHm
          | exfalso; match goal with
                     | E : parse_value fuel ?d ?s = OutOfFuel |- _ =>
                         apply (IHv d s); [|exact E]
                     end ];
    note_skips; simpl in *; try lia.
Qed.

(** So [json_parse] answers [None] only for input that is not JSON. *)
Lemma json_parse_verdict (data : bytes) :
  parse_value (2 * length data + 2) 0 (skip_space data) ≠ OutOfFuel.
Proof.
  apply parse_fuel_enough. pose proof (skip_space_le data). lia.
Qed.


(** ** The error classes are told apart by what they carry *)

Lemma fmt_d_inj (a b : Z) : fmt_d a = fmt_d b → a = b.
Proof.
  unfold fmt_d. intros E.
  assert (∀ z, NilZero.int_of_string (NilZero.string_of_int (Z.to_int z)) = Some (Z.to_int z)) as R.
  { intros z. apply NilZero.isi; destruct z; simpl; try discriminate;
      intros [= E']; by apply DecimalPos.Unsigned.to_uint_nonnil in E'. }
  pose proof (R a) as Ra. rewrite E, R in Ra. injection Ra as Ra.
  rewrite <- (DecimalZ.of_to a), <- (DecimalZ.of_to b). by rewrite Ra.
Qed.

Lemma UnexpectedStatusError_inj (a b : Z) :
  UnexpectedStatusError a = UnexpectedStatusError b → a = b.
Proof. intros [= E]. by apply fmt_d_inj. Qed.

Lemma length_append (s t : string) :
  String.length (s +:+ t) = (String.length s + String.length t)%nat.
Proof. induction s as [|a s IH]; simpl; [done|]. by rewrite IH. Qed.

Lemma append_inj_l (s t u : string) : s +:+ u = t +:+ u → s = t.
Proof.
  revert t. induction s as [|a s IH]; intros [|b t]; simpl; try done.
  - intros E. apply (f_equal String.length) in E.
    rewrite ?length_append in E. simpl in E. rewrite ?length_append in E. lia.
  - intros E. apply (f_equal String.length) in E.
    rewrite ?length_append in E. simpl in E. rewrite ?length_append in E. lia.
  - intros [= -> E]. f_equal. by apply IH.
Qed.

Lemma NotFoundError_inj (a b : string) : NotFoundError a = NotFoundError b → a = b.
Proof. intros [= E]. apply (append_inj_l a b " is not deployed"). exact E. Qed.

(** ** Running an operation *)

Ltac run_op Hreq Hdo :=
  unfold outcome, final, InvokeSync, InvokeAsync, HasNamespaceSupport,
    GetNamespaces, GetFunctions;
  unfold mbind, M_bind, lift; rewrite Hreq;
  unfold Client_Do; rewrite Hdo; cbn.

Ltac eval_m :=
  repeat (progress
            (unfold InvokeSync_response, InvokeAsync_response,
               HasNamespaceSupport_response, GetNamespaces_response,
               GetFunctions_response,
               mbind, M_bind, lift, defer_if, defer, mret, M_ret,
               ioutil_ReadAll, Body_Close; cbn)).

Ltac status :=
  repeat match goal with
    | Hne : ?sc ≠ ?k |- context [?sc =? ?k] =>
        rewrite (proj2 (Z.eqb_neq sc k) Hne)
    | |- context [?k =? ?k] => rewrite (Z.eqb_refl k)
    end.

Ltac finish_m :=
  repeat first
    [ reflexivity
    | progress eval_m
    | match goal with
      | |- context [?x =? ?k] => destruct (x =? k)
      | |- context [json_Unmarshal_strings ?x] =>
          destruct (json_Unmarshal_strings x) as [? [?|]]
      | |- context [json_Unmarshal_functions ?x] =>
          destruct (json_Unmarshal_functions x) as [? [?|]]
      end ].

(** ** What the decoder leaves in the list *)

Lemma Unmarshal_not_a_list (data : bytes) :
  not_a_list data → fst (json_Unmarshal_strings data) = [].
Proof.
  unfold not_a_list, json_Unmarshal_strings.
  destruct (json_parse data) as [v|]; [|done]. by destruct v.
Qed.

Lemma Unmarshal_list_length (data : bytes) (elems : list JSON) :
  json_parse data = Some (JArray elems) →
  length (fst (json_Unmarshal_strings data)) = length elems.
Proof.
  unfold json_Unmarshal_strings. intros ->. simpl. by rewrite !length_fmap.
Qed.

Section Claims.
Context `{GoLib}.

(** C1. Whatever the function name and the payload, [InvokeSync] on a
    response with status 200 returns the bytes of the response body as
    they were delivered, undecoded, and no error. *)
Theorem InvokeSync_status_200_returns_body c ctx name inv req res :
  InvokeSync_request c ctx name inv = Returns (Some req) →
  client c req = (Some res, None) →
  Response_StatusCode res = 200 →
  outcome (InvokeSync c ctx name inv) = Returns (Response_content res, None).
Proof.
  intros Hreq Hdo Hsc. run_op Hreq Hdo.
  destruct res as [sc [b|]]; cbn in *; subst sc; reflexivity.
Qed.

(** C2. For [InvokeSync] and [InvokeAsync] alike, whatever the function
    name and the response body: status 401 gives the authentication error,
    status 404 the not-found error that names the function, and every
    other status but the success one the unexpected-status error that
    carries the status code. *)
Theorem Invoke_error_classification :
  (∀ c ctx name inv req res,
     InvokeSync_request c ctx name inv = Returns (Some req) →
     client c req = (Some res, None) →
     let sc := Response_StatusCode res in
     let result := outcome (InvokeSync c ctx name inv) in
     (sc = 401 → result = Returns ([], Some AuthenticationError)) ∧
     (sc = 404 → result = Returns ([], Some (NotFoundError name))) ∧
     (sc ≠ 200 → sc ≠ 401 → sc ≠ 404 →
        result = Returns ([], Some (UnexpectedStatusError sc)))) ∧
  (∀ c ctx name inv req res,
     InvokeAsync_request c ctx name inv = Returns (Some req) →
     client c req = (Some res, None) →
     let sc := Response_StatusCode res in
     let result := outcome (InvokeAsync c ctx name inv) in
     (sc = 401 → result = Returns (false, Some AuthenticationError)) ∧
     (sc = 404 → result = Returns (false, Some (NotFoundError name))) ∧
     (sc ≠ 202 → sc ≠ 401 → sc ≠ 404 →
        result = Returns (false, Some (UnexpectedStatusError sc)))).
Proof.
  split; intros c ctx name inv req res Hreq Hdo sc result; subst sc result;
    run_op Hreq Hdo; destruct res as [sc [b|]]; eval_m;
    (split_and!; [intros -> | intros -> | intros ? ? ?]); status; reflexivity.
Qed.

(** C3, as amended. [HasNamespaceSupport]: on status 200 the answer, with
    no error, is true exactly when the list the decoder leaves behind is
    not empty, whether decoding succeeded or failed: a body that is not a
    JSON list gives false, and a body that is a JSON list gives true
    exactly when the list has an element, string or not.  Status 401 gives
    the authentication error; every other status gives false with no
    error. *)
Theorem HasNamespaceSupport_classification c ctx req res :
  HasNamespaceSupport_request c ctx = Returns (Some req) →
  client c req = (Some res, None) →
  let sc := Response_StatusCode res in
  let result := outcome (HasNamespaceSupport c ctx) in
  (sc = 200 → ∀ b, Response_Body res = Some b →
     let namespaces := fst (json_Unmarshal_strings (content b)) in
     ∃ supported,
       result = Returns (supported, None) ∧
       (supported = true ↔ namespaces ≠ []) ∧
       (not_a_list (content b) → supported = false) ∧
       (∀ elems, json_parse (content b) = Some (JArray elems) →
                 (supported = true ↔ elems ≠ []))) ∧
  (sc = 401 → result = Returns (false, Some AuthenticationError)) ∧
  (sc ≠ 200 → sc ≠ 401 → result = Returns (false, None)).
Proof.
  intros Hreq Hdo sc result; subst sc result. run_op Hreq Hdo.
  destruct res as [sc body]; cbn. split_and!.
  - intros -> b ->. eval_m.
    pose proof (Unmarshal_not_a_list (content b)) as Hn.
    pose proof (Unmarshal_list_length (content b)) as Hl.
    destruct (json_Unmarshal_strings (content b)) as [namespaces e]; cbn in *.
    eexists; split_and!; [reflexivity | | |].
    + rewrite bool_decide_eq_true. destruct namespaces; simpl; split; try done; lia.
    + intros Hnl. rewrite (Hn Hnl). reflexivity.
    + intros elems Hp. rewrite bool_decide_eq_true, (Hl elems Hp).
      destruct elems; simpl; split; try done; lia.
  - intros ->. destruct body; eval_m; reflexivity.
  - intros ? ?. destruct body; eval_m; status; reflexivity.
Qed.

(** C4, as amended. [GetNamespaces]: when the body decodes it returns the
    decoded list and no error, whatever the status; when decoding fails on
    status 401 it gives the authentication error; when decoding fails on
    any other status it returns, with no error, the list the decoder had
    built by then: empty when the body is not a JSON list, and with one
    entry for every element when the body is one. *)
Theorem GetNamespaces_classification c ctx req res b :
  GetNamespaces_request c ctx = Returns (Some req) →
  client c req = (Some res, None) →
  Response_Body res = Some b →
  let sc := Response_StatusCode res in
  let result := outcome (GetNamespaces c ctx) in
  let namespaces := fst (json_Unmarshal_strings (content b)) in
  let failed := snd (json_Unmarshal_strings (content b)) in
  (failed = None → result = Returns (namespaces, None)) ∧
  (failed ≠ None → sc = 401 → result = Returns ([], Some AuthenticationError)) ∧
  (failed ≠ None → sc ≠ 401 →
     result = Returns (namespaces, None) ∧
     (not_a_list (content b) → namespaces = []) ∧
     (∀ elems, json_parse (content b) = Some (JArray elems) →
               length namespaces = length elems)).
Proof.
  intros Hreq Hdo Hb sc result namespaces failed.
  subst sc result namespaces failed. run_op Hreq Hdo.
  destruct res as [sc body]; cbn in *; subst body. eval_m.
  pose proof (Unmarshal_not_a_list (content b)) as Hn.
  pose proof (Unmarshal_list_length (content b)) as Hl.
  destruct (json_Unmarshal_strings (content b)) as [namespaces [e|]]; cbn in *.
  - split_and!; [done | by intros _ -> |].
    intros _ Hsc. status. done.
  - split_and!; done.
Qed.

(** C5. [GetFunctions]: when the body decodes it returns the decoded
    records and no error, whatever the status; when decoding fails on
    status 401 it gives the authentication error; when decoding fails on
    any other status, 200 included, it gives the unexpected-status error
    that carries the status code. *)
Theorem GetFunctions_classification c ctx namespace req res b :
  GetFunctions_request c ctx namespace = Returns (Some req) →
  client c req = (Some res, None) →
  Response_Body res = Some b →
  let sc := Response_StatusCode res in
  let result := outcome (GetFunctions c ctx namespace) in
  let functions := fst (json_Unmarshal_functions (content b)) in
  let failed := snd (json_Unmarshal_functions (content b)) in
  (failed = None → result = Returns (functions, None)) ∧
  (failed ≠ None → sc = 401 → result = Returns ([], Some AuthenticationError)) ∧
  (failed ≠ None → sc ≠ 401 →
     result = Returns ([], Some (UnexpectedStatusError sc))).
Proof.
  intros Hreq Hdo Hb sc result functions failed.
  subst sc result functions failed. run_op Hreq Hdo.
  destruct res as [sc body]; cbn in *; subst body. eval_m.
  destruct (json_Unmarshal_functions (content b)) as [functions [e|]]; cbn in *.
  - split_and!; [done | by intros _ -> |].
    intros _ Hsc. status. done.
  - split_and!; done.
Qed.

(** C6. [InvokeAsync] returns true with no error exactly when the gateway
    answers with status 202; any other status from 200 to 299 gives the
    unexpected-status error. *)
Theorem InvokeAsync_accepted_iff_202 c ctx name inv req res err :
  InvokeAsync_request c ctx name inv = Returns (Some req) →
  client c req = (res, err) →
  let result := outcome (InvokeAsync c ctx name inv) in
  (result = Returns (true, None) ↔
     err = None ∧ ∃ r, res = Some r ∧ Response_StatusCode r = 202) ∧
  (∀ r, err = None → res = Some r →
        200 ≤ Response_StatusCode r < 300 → Response_StatusCode r ≠ 202 →
        result = Returns (false, Some (UnexpectedStatusError (Response_StatusCode r)))).
Proof.
  intros Hreq Hdo result; subst result. run_op Hreq Hdo. split.
  - destruct err as [e|]; [split; [done | by intros [? _]]|].
    destruct res as [[sc body]|]; cbn; [|split; [done | by intros [_ (? & ? & _)]]].
    destruct (Z.eqb_spec sc 202) as [->|Hne].
    + destruct body; eval_m; split; eauto.
    + split.
      * destruct body; eval_m; status; repeat case_match; done.
      * intros [_ (r & [= <-] & Hr)]. done.
  - intros [sc body] -> [= ->]; cbn. intros Hr Hne.
    assert (sc ≠ 401) by lia. assert (sc ≠ 404) by lia.
    destruct body; eval_m; status; reflexivity.
Qed.

End Claims.

(** ** The query string of [GetFunctions] *)

Lemma occurrences_app (c : ascii) (s t : string) :
  occurrences c (s +:+ t) = (occurrences c s + occurrences c t)%nat.
Proof. induction s as [|a s IH]; simpl; [done|]. rewrite IH. lia. Qed.

(** An escaped value holds neither [=] nor [&]. *)
Lemma QueryEscape_no_separator (s : string) :
  occurrences "=" (QueryEscape s) = 0%nat ∧ occurrences "&" (QueryEscape s) = 0%nat.
Proof.
  induction s as [|a s [IH1 IH2]]; [done|].
  destruct a as [[] [] [] [] [] [] [] []]; cbn; rewrite ?IH1, ?IH2; done.
Qed.

Lemma Values_Encode_one (k v : string) :
  Values_Encode (Values_Add ∅ k v) = QueryEscape k +:+ "=" +:+ QueryEscape v.
Proof.
  unfold Values_Encode, Values_Add. rewrite lookup_total_empty. simpl.
  rewrite insert_empty, map_to_list_singleton. simpl.
  rewrite lookup_total_singleton. by rewrite decide_True.
Qed.

Section MoreClaims.
Context `{GoLib}.

(** C7. [GetFunctions] puts the parameter [namespace] on the URL of the
    request it sends exactly when the namespace given is not empty: the
    query is then the one of the base URL with the escaped pair added
    once, and with the empty namespace the query of the base URL is left
    as it is.  For a base URL without a query of its own that is the single
    pair [namespace=<escaped value>], or no query at all. *)
Theorem GetFunctions_namespace_query c ctx namespace req0 :
  http_NewRequestWithContext ctx "GET" (url c +:+ "/system/functions") None
    = (Some req0, None) →
  ∃ req,
    GetFunctions_request c ctx namespace = Returns (Some req) ∧
    wire (final (GetFunctions c ctx namespace)) = [req] ∧
    let base := Request_URL req0 in
    let sent := URL_RawQuery (Request_URL req) in
    Request_URL req = URL_set_RawQuery base sent ∧
    (namespace = EmptyString → sent = URL_RawQuery base) ∧
    (namespace ≠ EmptyString →
       sent = Values_Encode (Values_Add (URL_Query base) "namespace" namespace)) ∧
    (URL_RawQuery base = EmptyString →
       (namespace = EmptyString → sent = EmptyString) ∧
       (namespace ≠ EmptyString →
          sent = "namespace=" +:+ QueryEscape namespace ∧
          occurrences "=" sent = 1%nat ∧ occurrences "&" sent = 0%nat)).
Proof.
  intros Hnew.
  assert (∃ req, GetFunctions_request c ctx namespace = Returns (Some req) ∧
     Request_URL req =
       (if bool_decide (0 < String.length namespace)%nat
        then URL_set_RawQuery (Request_URL req0)
               (Values_Encode (Values_Add (URL_Query (Request_URL req0)) "namespace" namespace))
        else Request_URL req0)) as (req & Hreq & Hurl).
  { unfold GetFunctions_request. rewrite Hnew.
    destruct (credentials c) as [cr|]; cbn;
      destruct (bool_decide (0 < String.length namespace)%nat); cbn; eauto. }
  exists req. split; [done|]. split.
  { unfold final, GetFunctions. unfold mbind, M_bind, lift. rewrite Hreq.
    unfold Client_Do. destruct (client c req) as [res [e|]]; [done|].
    destruct res as [[sc [b|]]|]; eval_m; [| | done].
    - by destruct (json_Unmarshal_functions (content b)) as [f [e|]].
    - done. }
  cbn zeta. destruct namespace as [|a ns].
  - rewrite bool_decide_eq_false_2 in Hurl by (simpl; lia). rewrite Hurl.
    destruct (Request_URL req0); split_and!; done.
  - rewrite bool_decide_eq_true_2 in Hurl by (simpl; lia). rewrite Hurl. cbn.
    split_and!; try done. intros Hq. split; [done|]. intros _.
    unfold URL_Query. rewrite Hq, url_ParseQuery_empty, Values_Encode_one.
    change (QueryEscape "namespace") with "namespace".
    destruct (QueryEscape_no_separator (String a ns)) as [E1 E2].
    split_and!; [done| |].
    + rewrite !occurrences_app, E1. done.
    + rewrite !occurrences_app, E2. done.
Qed.

End MoreClaims.

Section Paths.
Context `{GoLib}.

(** C8, as amended. In every operation a failure of the transport is
    classified first: the cause comes back wrapped and nothing is done with
    the response after [Do].  After that [InvokeSync], [InvokeAsync] and
    [HasNamespaceSupport] give the authentication error on status 401
    whatever the body, while [GetNamespaces] and [GetFunctions] decode the
    body first and look at status 401 only when decoding failed: a 401
    response whose body decodes is returned as a success. *)
Theorem classification_precedence :
  (∀ c ctx name inv req res e,
     InvokeSync_request c ctx name inv = Returns (Some req) →
     client c req = (res, Some e) →
     InvokeSync c ctx name inv World0 =
       (Returns ([], Some (TransportError e ("unable to invoke function " +:+ name))),
        snd (Client_Do (client c) (Some req) World0))) ∧
  (∀ c ctx name inv req res e,
     InvokeAsync_request c ctx name inv = Returns (Some req) →
     client c req = (res, Some e) →
     InvokeAsync c ctx name inv World0 =
       (Returns (false, Some (TransportError e ("unable to invoke function " +:+ name))),
        snd (Client_Do (client c) (Some req) World0))) ∧
  (∀ c ctx req res e,
     HasNamespaceSupport_request c ctx = Returns (Some req) →
     client c req = (res, Some e) →
     HasNamespaceSupport c ctx World0 =
       (Returns (false, Some (TransportError e "unable to determine namespace support")),
        snd (Client_Do (client c) (Some req) World0))) ∧
  (∀ c ctx req res e,
     GetNamespaces_request c ctx = Returns (Some req) →
     client c req = (res, Some e) →
     GetNamespaces c ctx World0 =
       (Returns ([], Some (TransportError e "unable to obtain namespaces")),
        snd (Client_Do (client c) (Some req) World0))) ∧
  (∀ c ctx namespace req res e,
     GetFunctions_request c ctx namespace = Returns (Some req) →
     client c req = (res, Some e) →
     GetFunctions c ctx namespace World0 =
       (Returns ([], Some (TransportError e "unable to obtain functions")),
        snd (Client_Do (client c) (Some req) World0))) ∧
  (∀ c ctx name inv req res,
     InvokeSync_request c ctx name inv = Returns (Some req) →
     client c req = (Some res, None) → Response_StatusCode res = 401 →
     outcome (InvokeSync c ctx name inv) = Returns ([], Some AuthenticationError)) ∧
  (∀ c ctx name inv req res,
     InvokeAsync_request c ctx name inv = Returns (Some req) →
     client c req = (Some res, None) → Response_StatusCode res = 401 →
     outcome (InvokeAsync c ctx name inv) = Returns (false, Some AuthenticationError)) ∧
  (∀ c ctx req res,
     HasNamespaceSupport_request c ctx = Returns (Some req) →
     client c req = (Some res, None) → Response_StatusCode res = 401 →
     outcome (HasNamespaceSupport c ctx) = Returns (false, Some AuthenticationError)) ∧
  (∀ c ctx req res b,
     GetNamespaces_request c ctx = Returns (Some req) →
     client c req = (Some res, None) → Response_StatusCode res = 401 →
     Response_Body res = Some b →
     outcome (GetNamespaces c ctx) =
       match json_Unmarshal_strings (content b) with
       | (_, Some _) => Returns ([], Some AuthenticationError)
       | (namespaces, None) => Returns (namespaces, None)
       end) ∧
  (∀ c ctx namespace req res b,
     GetFunctions_request c ctx namespace = Returns (Some req) →
     client c req = (Some res, None) → Response_StatusCode res = 401 →
     Response_Body res = Some b →
     outcome (GetFunctions c ctx namespace) =
       match json_Unmarshal_functions (content b) with
       | (_, Some _) => Returns ([], Some AuthenticationError)
       | (functions, None) => Returns (functions, None)
       end).
Proof.
  split_and!.
  1-5: intros; unfold InvokeSync, InvokeAsync, HasNamespaceSupport, GetNamespaces,
         GetFunctions, mbind, M_bind, lift;
       match goal with Hreq : _ = Returns (Some _) |- _ => rewrite Hreq end;
       unfold Client_Do;
       match goal with Hdo : client _ _ = _ |- _ => rewrite Hdo end; reflexivity.
  1-3: intros ? ? ? ? ? [sc [b|]] Hreq Hdo Hsc || intros ? ? ? [sc [b|]] Hreq Hdo Hsc;
       run_op Hreq Hdo; cbn in Hsc; subst sc; eval_m; reflexivity.
  - intros c ctx req [sc body] b Hreq Hdo Hsc Hb. cbn in *. subst.
    run_op Hreq Hdo. eval_m.
    by destruct (json_Unmarshal_strings (content b)) as [namespaces [e|]].
  - intros c ctx ns req [sc body] b Hreq Hdo Hsc Hb. cbn in *. subst.
    run_op Hreq Hdo. eval_m.
    by destruct (json_Unmarshal_functions (content b)) as [functions [e|]].
Qed.

(** C9, as amended. On every path out of every operation the stream of
    the response body, if the call was handed one, is closed.  It was read
    to its end before that on every path of [InvokeSync], [GetNamespaces]
    and [GetFunctions] on which a response came back, and on the
    status-200 path of [HasNamespaceSupport]; [InvokeAsync], and
    [HasNamespaceSupport] on any other status, close the stream with
    everything in it unread. *)
Theorem response_body_released :
  (∀ c ctx name inv, released (final (InvokeSync c ctx name inv)) = true) ∧
  (∀ c ctx name inv, released (final (InvokeAsync c ctx name inv)) = true) ∧
  (∀ c ctx, released (final (HasNamespaceSupport c ctx)) = true) ∧
  (∀ c ctx, released (final (GetNamespaces c ctx)) = true) ∧
  (∀ c ctx namespace, released (final (GetFunctions c ctx namespace)) = true) ∧
  (∀ c ctx name inv req res,
     InvokeSync_request c ctx name inv = Returns (Some req) →
     client c req = (Some res, None) →
     drained (final (InvokeSync c ctx name inv)) = true) ∧
  (∀ c ctx req res,
     GetNamespaces_request c ctx = Returns (Some req) →
     client c req = (Some res, None) →
     drained (final (GetNamespaces c ctx)) = true) ∧
  (∀ c ctx namespace req res,
     GetFunctions_request c ctx namespace = Returns (Some req) →
     client c req = (Some res, None) →
     drained (final (GetFunctions c ctx namespace)) = true) ∧
  (∀ c ctx req res,
     HasNamespaceSupport_request c ctx = Returns (Some req) →
     client c req = (Some res, None) →
     Response_StatusCode res = 200 →
     drained (final (HasNamespaceSupport c ctx)) = true) ∧
  (∀ c ctx req res b,
     HasNamespaceSupport_request c ctx = Returns (Some req) →
     client c req = (Some res, None) →
     Response_StatusCode res ≠ 200 →
     Response_Body res = Some b →
     resBody (final (HasNamespaceSupport c ctx)) =
       Some (mkReadCloser (content b) (failure b) true)) ∧
  (∀ c ctx name inv req res b,
     InvokeAsync_request c ctx name inv = Returns (Some req) →
     client c req = (Some res, None) →
     Response_Body res = Some b →
     resBody (final (InvokeAsync c ctx name inv)) =
       Some (mkReadCloser (content b) (failure b) true)).
Proof.
  split_and!.
  1-5: intros; unfold final, InvokeSync, InvokeAsync, HasNamespaceSupport,
         GetNamespaces, GetFunctions, mbind, M_bind, lift;
       match goal with
       | |- context [InvokeSync_request ?c ?x ?n ?i] =>
           destruct (InvokeSync_request c x n i) as [[req|]|p]
       | |- context [InvokeAsync_request ?c ?x ?n ?i] =>
           destruct (InvokeAsync_request c x n i) as [[req|]|p]
       | |- context [HasNamespaceSupport_request ?c ?x] =>
           destruct (HasNamespaceSupport_request c x) as [[req|]|p]
       | |- context [GetNamespaces_request ?c ?x] =>
           destruct (GetNamespaces_request c x) as [[req|]|p]
       | |- context [GetFunctions_request ?c ?x ?n] =>
           destruct (GetFunctions_request c x n) as [[req|]|p]
       end;
       [| reflexivity | reflexivity ];
       unfold Client_Do;
       match goal with |- context [client ?c ?q] =>
         destruct (client c q) as [[[sc [b|]]|] [e|]] end;
       finish_m.
  1-3: intros until res; intros Hreq Hdo; run_op Hreq Hdo;
       destruct res as [sc [b|]]; finish_m.
  - intros c ctx req [sc [b|]] Hreq Hdo Hsc; cbn in Hsc; subst sc;
      run_op Hreq Hdo; eval_m; [|reflexivity].
    by destruct (json_Unmarshal_strings (content b)).
  - intros c ctx req [sc body] b Hreq Hdo Hsc Hb; cbn in *; subst body.
    run_op Hreq Hdo. eval_m. status. by destruct (sc =? 401).
  - intros c ctx name inv req [sc body] b Hreq Hdo Hb; cbn in *; subst body.
    run_op Hreq Hdo. eval_m. reflexivity.
Qed.

(** C10. Every operation drops the error of [http.NewRequestWithContext]:
    when the request cannot be built, say for a URL that does not parse,
    the operation goes on with the nil request, dereferences it (in the
    header and credential calls, or in [Do] and the query code when there
    are no credentials) and panics before anything is sent; no error is
    returned.  When the request can be built, building it does not
    panic. *)
Theorem request_construction_error_discarded c ctx :
  let site := if credentials c is Some _ then "req.SetBasicAuth" else "req.URL" in
  (∀ name inv,
     fst (http_NewRequestWithContext ctx "POST" (url c +:+ "/function/" +:+ name)
            (Message inv)) = None →
     InvokeSync c ctx name inv World0 = (Panics (NilDereference "req.Header"), World0)) ∧
  (∀ name inv,
     fst (http_NewRequestWithContext ctx "POST" (url c +:+ "/async-function/" +:+ name)
            (Message inv)) = None →
     InvokeAsync c ctx name inv World0 = (Panics (NilDereference "req.Header"), World0)) ∧
  (fst (http_NewRequestWithContext ctx "GET" (url c +:+ "/system/namespaces") None) = None →
     HasNamespaceSupport c ctx World0 = (Panics (NilDereference site), World0) ∧
     GetNamespaces c ctx World0 = (Panics (NilDereference site), World0)) ∧
  (∀ namespace,
     fst (http_NewRequestWithContext ctx "GET" (url c +:+ "/system/functions") None) = None →
     GetFunctions c ctx namespace World0 = (Panics (NilDereference site), World0)) ∧
  (∀ name inv,
     is_Some (fst (http_NewRequestWithContext ctx "POST" (url c +:+ "/function/" +:+ name)
                     (Message inv))) →
     ∃ req, InvokeSync_request c ctx name inv = Returns (Some req)) ∧
  (∀ name inv,
     is_Some (fst (http_NewRequestWithContext ctx "POST"
                     (url c +:+ "/async-function/" +:+ name) (Message inv))) →
     ∃ req, InvokeAsync_request c ctx name inv = Returns (Some req)) ∧
  (is_Some (fst (http_NewRequestWithContext ctx "GET" (url c +:+ "/system/namespaces") None)) →
     ∃ req, HasNamespaceSupport_request c ctx = Returns (Some req) ∧
            GetNamespaces_request c ctx = Returns (Some req)) ∧
  (∀ namespace,
     is_Some (fst (http_NewRequestWithContext ctx "GET" (url c +:+ "/system/functions") None)) →
     ∃ req, GetFunctions_request c ctx namespace = Returns (Some req)).
Proof.
  cbn zeta.
  assert (∀ m u b, fst (http_NewRequestWithContext ctx m u b) = None →
                   ∃ e, http_NewRequestWithContext ctx m u b = (None, e)) as Hnil.
  { intros m u b. destruct (http_NewRequestWithContext ctx m u b) as [[r|] e];
      [done | eauto]. }
  assert (∀ m u b, is_Some (fst (http_NewRequestWithContext ctx m u b)) →
                   ∃ r e, http_NewRequestWithContext ctx m u b = (Some r, e)) as Hsome.
  { intros m u b. destruct (http_NewRequestWithContext ctx m u b) as [[r|] e];
      [eauto | by intros [? ?]]. }
  split_and!.
  - intros name inv [e E]%Hnil.
    unfold InvokeSync, InvokeSync_request, mbind, M_bind, lift. by rewrite E.
  - intros name inv [e E]%Hnil.
    unfold InvokeAsync, InvokeAsync_request, mbind, M_bind, lift. by rewrite E.
  - intros [e E]%Hnil.
    unfold HasNamespaceSupport, HasNamespaceSupport_request,
      GetNamespaces, GetNamespaces_request, mbind, M_bind, lift. rewrite E.
    by destruct (credentials c).
  - intros namespace [e E]%Hnil.
    unfold GetFunctions, GetFunctions_request, mbind, M_bind, lift. rewrite E.
    destruct (credentials c); [done|]. cbn.
    by destruct (bool_decide (0 < String.length namespace)%nat).
  - intros name inv (r & e & E)%Hsome. unfold InvokeSync_request. rewrite E.
    destruct (credentials c); cbn; eauto.
  - intros name inv (r & e & E)%Hsome. unfold InvokeAsync_request. rewrite E.
    destruct (credentials c); cbn; eauto.
  - intros (r & e & E)%Hsome.
    unfold HasNamespaceSupport_request, GetNamespaces_request. rewrite E.
    destruct (credentials c); cbn; eauto.
  - intros namespace (r & e & E)%Hsome. unfold GetFunctions_request. rewrite E.
    destruct (credentials c); cbn;
      destruct (bool_decide (0 < String.length namespace)%nat); cbn; eauto.
Qed.

End Paths.

(** ** The claims at concrete calls, against the reference instance *)

Lemma InvokeSync_status_200_witness :
  ∃ req,
    InvokeSync_request (H:=refLib)
      (NewClient (gateway_says 200 "pong") (Some admin) gateway_url)
      Background "echo" echo_invocation = Returns (Some req) ∧
    outcome (InvokeSync (H:=refLib)
               (NewClient (gateway_says 200 "pong") (Some admin) gateway_url)
               Background "echo" echo_invocation)
      = Returns (list_byte_of_string "pong", None).
Proof.
  eexists. split; [reflexivity|].
  eapply (@InvokeSync_status_200_returns_body refLib _ _ _ _ _
            (mkResponse 200 (Some (mkBodyStream (list_byte_of_string "pong") None))));
    reflexivity.
Defined.

Lemma Invoke_error_classification_witness :
  outcome (InvokeSync (H:=refLib) (NewClient (gateway_says 404 "no such function") None gateway_url)
             Background "echo" echo_invocation)
    = Returns ([], Some (NotFoundError "echo")) ∧
  outcome (InvokeAsync (H:=refLib) (NewClient (gateway_says 500 "oops") None gateway_url)
             Background "echo" echo_invocation)
    = Returns (false, Some (UnexpectedStatusError 500)).
Proof.
  split.
  - edestruct (proj1 (@Invoke_error_classification refLib)
                 (NewClient (gateway_says 404 "no such function") None gateway_url)
                 Background "echo" echo_invocation) as (_ & H404 & _);
      [reflexivity | reflexivity | apply H404; reflexivity].
  - edestruct (proj2 (@Invoke_error_classification refLib)
                 (NewClient (gateway_says 500 "oops") None gateway_url)
                 Background "echo" echo_invocation) as (_ & _ & Hother);
      [reflexivity | reflexivity | apply Hother; discriminate].
Defined.

Lemma HasNamespaceSupport_classification_witness :
  outcome (HasNamespaceSupport (H:=refLib)
             (NewClient (gateway_json 200 "['prod','staging']") None gateway_url)
             Background) = Returns (true, None) ∧
  outcome (HasNamespaceSupport (H:=refLib)
             (NewClient (gateway_json 200 "[]") None gateway_url)
             Background) = Returns (false, None) ∧
  outcome (HasNamespaceSupport (H:=refLib)
             (NewClient (gateway_json 200 "{'error':'x'}") None gateway_url)
             Background) = Returns (false, None) ∧
  outcome (HasNamespaceSupport (H:=refLib)
             (NewClient (gateway_says 500 "oops") None gateway_url)
             Background) = Returns (false, None).
Proof.
  split_and!.
  - edestruct (@HasNamespaceSupport_classification refLib
                 (NewClient (gateway_json 200 "['prod','staging']") None gateway_url)
                 Background) as (H200 & _ & _); [reflexivity | reflexivity |].
    edestruct H200 as (supported & Hres & Hiff & _); [reflexivity | reflexivity |].
    rewrite Hres. destruct supported; [reflexivity|].
    discriminate (proj2 Hiff ltac:(discriminate)).
  - edestruct (@HasNamespaceSupport_classification refLib
                 (NewClient (gateway_json 200 "[]") None gateway_url)
                 Background) as (H200 & _ & _); [reflexivity | reflexivity |].
    edestruct H200 as (supported & Hres & Hiff & _); [reflexivity | reflexivity |].
    rewrite Hres. destruct supported; [|reflexivity].
    destruct (proj1 Hiff eq_refl). reflexivity.
  - edestruct (@HasNamespaceSupport_classification refLib
                 (NewClient (gateway_json 200 "{'error':'x'}") None gateway_url)
                 Background) as (H200 & _ & _); [reflexivity | reflexivity |].
    edestruct H200 as (supported & Hres & _ & Hnot & _); [reflexivity | reflexivity |].
    rewrite Hres, Hnot; [reflexivity|]. vm_compute. exact I.
  - edestruct (@HasNamespaceSupport_classification refLib
                 (NewClient (gateway_says 500 "oops") None gateway_url)
                 Background) as (_ & _ & Hother); [reflexivity | reflexivity |].
    apply Hother; discriminate.
Defined.

(** C3 as it was stated fails: on status 200 with the body [[1]] decoding
    fails, so the body does not decode to a sequence of namespace names,
    and the answer is true all the same. *)
Lemma HasNamespaceSupport_true_on_failed_decode :
  json_Unmarshal_strings (json_text "[1]")
    = ([EmptyString], Some (json_UnmarshalTypeError "number")) ∧
  outcome (HasNamespaceSupport (H:=refLib)
             (NewClient (gateway_json 200 "[1]") None gateway_url) Background)
    = Returns (true, None).
Proof. split; reflexivity. Qed.

(** C4 as it was stated fails: on status 500 with the body [[1]] decoding
    fails, and the list returned with no error is not empty. *)
Lemma GetNamespaces_partial_list_returned :
  snd (json_Unmarshal_strings (json_text "[1]"))
    = Some (json_UnmarshalTypeError "number") ∧
  outcome (GetNamespaces (H:=refLib)
             (NewClient (gateway_json 500 "[1]") None gateway_url) Background)
    = Returns ([EmptyString], None) ∧
  outcome (GetNamespaces (H:=refLib)
             (NewClient (gateway_json 500 "[1]") None gateway_url) Background)
    ≠ Returns ([], None).
Proof. split_and!; [reflexivity | reflexivity | discriminate]. Qed.

Lemma GetNamespaces_classification_witness :
  outcome (GetNamespaces (H:=refLib)
             (NewClient (gateway_json 200 "['a','b']") None gateway_url) Background)
    = Returns (["a"; "b"], None) ∧
  outcome (GetNamespaces (H:=refLib)
             (NewClient (gateway_says 401 "invalid credentials") None gateway_url)
             Background)
    = Returns ([], Some AuthenticationError) ∧
  outcome (GetNamespaces (H:=refLib)
             (NewClient (gateway_json 500 "['a',1]") None gateway_url) Background)
    = Returns (["a"; EmptyString], None).
Proof.
  split_and!.
  - edestruct (@GetNamespaces_classification refLib
                 (NewClient (gateway_json 200 "['a','b']") None gateway_url)
                 Background) as (Hok & _ & _);
      [reflexivity | reflexivity | reflexivity | apply Hok; reflexivity].
  - edestruct (@GetNamespaces_classification refLib
                 (NewClient (gateway_says 401 "invalid credentials") None gateway_url)
                 Background) as (_ & H401 & _);
      [reflexivity | reflexivity | reflexivity | apply H401; [discriminate | reflexivity]].
  - edestruct (@GetNamespaces_classification refLib
                 (NewClient (gateway_json 500 "['a',1]") None gateway_url)
                 Background) as (_ & _ & Hother);
      [reflexivity | reflexivity | reflexivity |].
    apply Hother; discriminate.
Defined.

Lemma GetFunctions_classification_witness :
  outcome (GetFunctions (H:=refLib)
             (NewClient (gateway_says 200 "oops") None gateway_url) Background "fn")
    = Returns ([], Some (UnexpectedStatusError 200)) ∧
  outcome (GetFunctions (H:=refLib)
             (NewClient (gateway_json 500 "[{'name':'echo'}]") None gateway_url)
             Background "fn")
    = Returns ([[("name", JString "echo")]], None).
Proof.
  split.
  - edestruct (@GetFunctions_classification refLib
                 (NewClient (gateway_says 200 "oops") None gateway_url)
                 Background "fn") as (_ & _ & Hother);
      [reflexivity | reflexivity | reflexivity | apply Hother; discriminate].
  - edestruct (@GetFunctions_classification refLib
                 (NewClient (gateway_json 500 "[{'name':'echo'}]") None gateway_url)
                 Background "fn") as (Hok & _ & _);
      [reflexivity | reflexivity | reflexivity | apply Hok; reflexivity].
Defined.

Lemma InvokeAsync_accepted_iff_202_witness :
  outcome (InvokeAsync (H:=refLib) (NewClient (gateway_says 202 "") None gateway_url)
             Background "echo" echo_invocation) = Returns (true, None) ∧
  outcome (InvokeAsync (H:=refLib) (NewClient (gateway_says 200 "done") None gateway_url)
             Background "echo" echo_invocation)
    = Returns (false, Some (UnexpectedStatusError 200)).
Proof.
  split.
  - edestruct (@InvokeAsync_accepted_iff_202 refLib
                 (NewClient (gateway_says 202 "") None gateway_url)
                 Background "echo" echo_invocation) as [[_ Hacc] _];
      [reflexivity | reflexivity |].
    apply Hacc. split; [reflexivity|]. eexists. split; reflexivity.
  - edestruct (@InvokeAsync_accepted_iff_202 refLib
                 (NewClient (gateway_says 200 "done") None gateway_url)
                 Background "echo" echo_invocation) as [_ Hother];
      [reflexivity | reflexivity |].
    apply (Hother (mkResponse 200 (Some (mkBodyStream (list_byte_of_string "done") None))));
      [reflexivity | reflexivity | simpl; lia | discriminate].
Defined.

Lemma GetFunctions_namespace_query_witness :
  ∃ req,
    GetFunctions_request (H:=refLib)
      (NewClient (gateway_json 200 "[]") (Some admin) gateway_url)
      Background "my ns&x" = Returns (Some req) ∧
    URL_RawQuery (Request_URL req) = "namespace=my+ns%26x".
Proof.
  edestruct (@GetFunctions_namespace_query refLib
               (NewClient (gateway_json 200 "[]") (Some admin) gateway_url)
               Background "my ns&x") as (req & Hreq & _ & _ & _ & _ & Hq);
    [reflexivity|].
  exists req. split; [exact Hreq|].
  destruct Hq as [_ Hq]; [reflexivity|]. destruct Hq as [Hq _]; [discriminate|].
  exact Hq.
Defined.

(** C8 as it was stated fails: [GetNamespaces] on status 401 with a body
    that decodes returns the list, not the authentication error. *)
Lemma GetNamespaces_401_decodes_first :
  outcome (GetNamespaces (H:=refLib)
             (NewClient (gateway_json 401 "['a']") None gateway_url) Background)
    = Returns (["a"], None) ∧
  outcome (GetNamespaces (H:=refLib)
             (NewClient (gateway_json 401 "['a']") None gateway_url) Background)
    ≠ Returns ([], Some AuthenticationError) ∧
  outcome (GetFunctions (H:=refLib)
             (NewClient (gateway_json 401 "[]") None gateway_url) Background "fn")
    = Returns ([], None).
Proof. split_and!; [reflexivity | discriminate | reflexivity]. Qed.

Lemma classification_precedence_witness :
  outcome (InvokeSync (H:=refLib)
             (NewClient (failing_transport (errors_New "context canceled")) None gateway_url)
             Background "echo" echo_invocation)
    = Returns ([], Some (TransportError (errors_New "context canceled")
                           "unable to invoke function echo")) ∧
  outcome (HasNamespaceSupport (H:=refLib)
             (NewClient (gateway_json 401 "['a']") None gateway_url) Background)
    = Returns (false, Some AuthenticationError).
Proof.
  destruct (@classification_precedence refLib)
    as (Hsync & _ & _ & _ & _ & _ & _ & Hprobe & _).
  split.
  - unfold outcome. erewrite Hsync; [reflexivity | reflexivity | reflexivity].
  - eapply Hprobe; reflexivity.
Defined.

(** C9 as it was stated fails: [InvokeAsync] closes the body of a 202
    response without reading it. *)
Lemma InvokeAsync_body_not_drained :
  resBody (final (InvokeAsync (H:=refLib)
                    (NewClient (gateway_says 202 "queued") None gateway_url)
                    Background "echo" echo_invocation))
    = Some (mkReadCloser (list_byte_of_string "queued") None true) ∧
  drained (final (InvokeAsync (H:=refLib)
                    (NewClient (gateway_says 202 "queued") None gateway_url)
                    Background "echo" echo_invocation)) = false.
Proof. split; reflexivity. Qed.

Lemma response_body_released_witness :
  drained (final (InvokeSync (H:=refLib)
                    (NewClient (gateway_says 200 "pong") None gateway_url)
                    Background "echo" echo_invocation)) = true ∧
  released (final (InvokeAsync (H:=refLib)
                     (NewClient (gateway_says 202 "queued") None gateway_url)
                     Background "echo" echo_invocation)) = true.
Proof.
  destruct (@response_body_released refLib) as (_ & Hclosed & _ & _ & _ & Hsync & _).
  split.
  - eapply Hsync; reflexivity.
  - apply Hclosed.
Defined.

Lemma request_construction_error_discarded_witness :
  fst (http_NewRequestWithContext (H:=refLib) Background "POST"
         (gateway_url +:+ "/function/" +:+ bad_name) (Message echo_invocation)) = None ∧
  InvokeSync (H:=refLib) (NewClient (gateway_says 200 "pong") None gateway_url)
    Background bad_name echo_invocation World0
    = (Panics (NilDereference "req.Header"), World0).
Proof.
  split; [reflexivity|].
  destruct (@request_construction_error_discarded refLib
              (NewClient (gateway_says 200 "pong") None gateway_url) Background)
    as (Hsync & _).
  apply Hsync. reflexivity.
Defined.

(** * Further properties of the package *)

(** ** Release metadata *)

(** X1. [GetReleaseInfo]: a value the linker set is returned as it is, ahead
    of the development default, each of the two results on its own; and
    with non-empty development defaults neither result is ever empty. *)
Theorem GetReleaseInfo_prefers_build_values (g : BuildInfo) :
  let sha := fst (GetReleaseInfo g) in
  let release := snd (GetReleaseInfo g) in
  (GitCommit g ≠ EmptyString → sha = GitCommit g) ∧
  (Version g ≠ EmptyString → release = Version g) ∧
  (GitCommit g = EmptyString → sha = DEVCommit g) ∧
  (Version g = EmptyString → release = DEVVersion g) ∧
  (DEVCommit g ≠ EmptyString → sha ≠ EmptyString) ∧
  (DEVVersion g ≠ EmptyString → release ≠ EmptyString).
Proof.
  unfold GetReleaseInfo. destruct g as [v gc dv dc]; cbn.
  destruct v, gc; cbn; repeat case_bool_decide; simpl in *; try lia;
    split_and!; congruence.
Qed.

(** ** What goes on the wire *)

Section Wire.
Context `{GoLib}.

Ltac sent_by request :=
  intros; unfold final, InvokeSync, InvokeAsync, HasNamespaceSupport,
    GetNamespaces, GetFunctions, mbind, M_bind, lift;
  destruct request as [[req|]|p]; [| reflexivity | reflexivity ];
  unfold Client_Do;
  match goal with |- context [client ?c ?q] =>
    destruct (client c q) as [[[sc [b|]]|] [e|]] end;
  finish_m.

Lemma InvokeSync_wire c ctx name inv :
  wire (final (InvokeSync c ctx name inv)) = sent (InvokeSync_request c ctx name inv).
Proof. sent_by (InvokeSync_request c ctx name inv). Qed.

Lemma InvokeAsync_wire c ctx name inv :
  wire (final (InvokeAsync c ctx name inv)) = sent (InvokeAsync_request c ctx name inv).
Proof. sent_by (InvokeAsync_request c ctx name inv). Qed.

Lemma HasNamespaceSupport_wire c ctx :
  wire (final (HasNamespaceSupport c ctx)) = sent (HasNamespaceSupport_request c ctx).
Proof. sent_by (HasNamespaceSupport_request c ctx). Qed.

Lemma GetNamespaces_wire c ctx :
  wire (final (GetNamespaces c ctx)) = sent (GetNamespaces_request c ctx).
Proof. sent_by (GetNamespaces_request c ctx). Qed.

Lemma GetFunctions_wire c ctx namespace :
  wire (final (GetFunctions c ctx namespace)) = sent (GetFunctions_request c ctx namespace).
Proof. sent_by (GetFunctions_request c ctx namespace). Qed.

(** X2. No operation retries: whatever the transport answers, a call hands it
    one request, the one it built, or none at all when it has no request
    to hand over. *)
Theorem one_request_per_call c ctx :
  (∀ name inv,
     wire (final (InvokeSync c ctx name inv)) = sent (InvokeSync_request c ctx name inv) ∧
     wire (final (InvokeAsync c ctx name inv)) = sent (InvokeAsync_request c ctx name inv)) ∧
  wire (final (HasNamespaceSupport c ctx)) = sent (HasNamespaceSupport_request c ctx) ∧
  wire (final (GetNamespaces c ctx)) = sent (GetNamespaces_request c ctx) ∧
  (∀ namespace,
     wire (final (GetFunctions c ctx namespace))
       = sent (GetFunctions_request c ctx namespace)) ∧
  (∀ o, (length (sent o) ≤ 1)%nat).
Proof.
  split_and!; intros;
    rewrite ?InvokeSync_wire, ?InvokeAsync_wire, ?HasNamespaceSupport_wire,
      ?GetNamespaces_wire, ?GetFunctions_wire; try done.
  destruct o as [[?|]|?]; simpl; lia.
Qed.

(** X3. The request of an invocation: a POST to [<url>/function/<name>]
    (sync) or [<url>/async-function/<name>] (async) that carries the
    caller's context and the payload as its body, the headers Content-Type
    and Content-Encoding whatever their values, even empty, and the
    Authorization header exactly when the client has credentials; nothing
    else. *)
Theorem Invoke_request_on_wire c e name inv :
  let headers :=
    with_credentials c
      (<["Content-Encoding" := [ContentEncoding inv]]>
         (<["Content-Type" := [ContentType inv]]> ∅)) in
  (∀ u, url_Parse (url c +:+ "/function/" +:+ name) = inl u →
        wire (final (InvokeSync c (liveContext e) name inv))
          = [mkRequest (liveContext e) "POST" u headers (Message inv)]) ∧
  (∀ u, url_Parse (url c +:+ "/async-function/" +:+ name) = inl u →
        wire (final (InvokeAsync c (liveContext e) name inv))
          = [mkRequest (liveContext e) "POST" u headers (Message inv)]).
Proof.
  cbn zeta. split; intros u Hu.
  - rewrite InvokeSync_wire.
    unfold InvokeSync_request, http_NewRequestWithContext, with_credentials.
    rewrite Hu. by destruct (credentials c).
  - rewrite InvokeAsync_wire.
    unfold InvokeAsync_request, http_NewRequestWithContext, with_credentials.
    rewrite Hu. by destruct (credentials c).
Qed.

(** X4. The requests of discovery: [HasNamespaceSupport] and [GetNamespaces]
    send the same request, a GET of [<url>/system/namespaces] with no body
    and no header but Authorization, which is there exactly when the
    client has credentials; [GetFunctions] sends such a GET of
    [<url>/system/functions], its query apart. *)
Theorem discovery_request_on_wire c e :
  (∀ u, url_Parse (url c +:+ "/system/namespaces") = inl u →
        wire (final (HasNamespaceSupport c (liveContext e)))
          = [mkRequest (liveContext e) "GET" u (with_credentials c ∅) None] ∧
        wire (final (GetNamespaces c (liveContext e)))
          = [mkRequest (liveContext e) "GET" u (with_credentials c ∅) None]) ∧
  (∀ u namespace, url_Parse (url c +:+ "/system/functions") = inl u →
        ∃ q, wire (final (GetFunctions c (liveContext e) namespace))
               = [mkRequest (liveContext e) "GET" (URL_set_RawQuery u q)
                    (with_credentials c ∅) None]).
Proof.
  split.
  - intros u Hu. rewrite HasNamespaceSupport_wire, GetNamespaces_wire.
    unfold HasNamespaceSupport_request, GetNamespaces_request,
      http_NewRequestWithContext, with_credentials.
    rewrite Hu. by destruct (credentials c).
  - intros u namespace Hu. rewrite GetFunctions_wire.
    unfold GetFunctions_request, http_NewRequestWithContext, with_credentials.
    rewrite Hu. destruct u as [s h p q f].
    destruct (credentials c); cbn;
      destruct (bool_decide (0 < String.length namespace)%nat); cbn; eauto.
Qed.

End Wire.

(** ** Panics, and the transport's promise *)

Ltac crack :=
  repeat first
    [ progress eval_m
    | match goal with
      | |- context [?x =? ?k] => destruct (Z.eqb_spec x k)
      | |- context [json_Unmarshal_strings ?x] =>
          destruct (json_Unmarshal_strings x) as [? [?|]] eqn:?
      | |- context [json_Unmarshal_functions ?x] =>
          destruct (json_Unmarshal_functions x) as [? [?|]] eqn:?
      end ].

Section Edges.
Context `{GoLib}.

(** X5. Once its request is built, no operation panics on a transport that keeps
    the promise of [http.Client.Do] (an error, or a response with a
    body): the call returns. *)
Theorem no_panic_under_contract :
  (∀ c ctx name inv req,
     InvokeSync_request c ctx name inv = Returns (Some req) →
     keeps_contract (client c req) = true →
     ∃ v, outcome (InvokeSync c ctx name inv) = Returns v) ∧
  (∀ c ctx name inv req,
     InvokeAsync_request c ctx name inv = Returns (Some req) →
     keeps_contract (client c req) = true →
     ∃ v, outcome (InvokeAsync c ctx name inv) = Returns v) ∧
  (∀ c ctx req,
     HasNamespaceSupport_request c ctx = Returns (Some req) →
     keeps_contract (client c req) = true →
     ∃ v, outcome (HasNamespaceSupport c ctx) = Returns v) ∧
  (∀ c ctx req,
     GetNamespaces_request c ctx = Returns (Some req) →
     keeps_contract (client c req) = true →
     ∃ v, outcome (GetNamespaces c ctx) = Returns v) ∧
  (∀ c ctx namespace req,
     GetFunctions_request c ctx namespace = Returns (Some req) →
     keeps_contract (client c req) = true →
     ∃ v, outcome (GetFunctions c ctx namespace) = Returns v).
Proof.
  split_and!; intros until req; intros Hreq Hk;
    unfold outcome, InvokeSync, InvokeAsync, HasNamespaceSupport, GetNamespaces,
      GetFunctions, mbind, M_bind, lift; rewrite Hreq; unfold Client_Do;
    match goal with |- context [client ?c ?q] =>
      destruct (client c q) as [[[sc [b|]]|] [e|]] end;
    try discriminate Hk; crack; eauto.
Qed.


(** X7. An error never comes with a value: whenever an operation returns an
    error, what it returns beside it is nil (or false). *)
Theorem error_comes_with_zero_value :
  (∀ c ctx name inv v e,
     outcome (InvokeSync c ctx name inv) = Returns (v, Some e) → v = []) ∧
  (∀ c ctx name inv v e,
     outcome (InvokeAsync c ctx name inv) = Returns (v, Some e) → v = false) ∧
  (∀ c ctx v e,
     outcome (HasNamespaceSupport c ctx) = Returns (v, Some e) → v = false) ∧
  (∀ c ctx v e,
     outcome (GetNamespaces c ctx) = Returns (v, Some e) → v = []) ∧
  (∀ c ctx namespace v e,
     outcome (GetFunctions c ctx namespace) = Returns (v, Some e) → v = []).
Proof.
  split_and!; intros until e;
    unfold outcome, InvokeSync, InvokeAsync, HasNamespaceSupport, GetNamespaces,
      GetFunctions, mbind, M_bind, lift;
    match goal with
    | |- context [InvokeSync_request ?c ?x ?n ?i] =>
        destruct (InvokeSync_request c x n i) as [[req|]|p]
    | |- context [InvokeAsync_request ?c ?x ?n ?i] =>
        destruct (InvokeAsync_request c x n i) as [[req|]|p]
    | |- context [HasNamespaceSupport_request ?c ?x] =>
        destruct (HasNamespaceSupport_request c x) as [[req|]|p]
    | |- context [GetNamespaces_request ?c ?x] =>
        destruct (GetNamespaces_request c x) as [[req|]|p]
    | |- context [GetFunctions_request ?c ?x ?n] =>
        destruct (GetFunctions_request c x n) as [[req|]|p]
    end; try discriminate;
    unfold Client_Do;
    match goal with |- context [client ?c ?q] =>
      destruct (client c q) as [[[sc [b|]]|] [e'|]] end;
    crack; intros Heq; by simplify_eq.
Qed.

End Edges.

(** ** What an error tells the caller *)

Section Soundness.
Context `{GoLib}.

(** X8. The errors tell what happened.  An error of [InvokeSync] or
    [InvokeAsync] is the wrapped cause of a transport failure, or one of
    the three status errors, and then the response had that very status;
    an error of [HasNamespaceSupport] or [GetNamespaces] is a wrapped
    transport failure or the authentication error of a 401 response; an
    error of [GetFunctions] is one of these or the unexpected-status error
    with the status of the response.  [GetNamespaces] and [GetFunctions]
    fail on a response only when its body did not decode, and what the
    decoder reported is never passed on. *)
Theorem errors_tell_what_happened :
  (∀ c ctx name inv req res err v e,
     InvokeSync_request c ctx name inv = Returns (Some req) →
     client c req = (res, err) →
     outcome (InvokeSync c ctx name inv) = Returns (v, Some e) →
     (∃ cause, err = Some cause ∧
               e = TransportError cause ("unable to invoke function " +:+ name)) ∨
     (∃ r, err = None ∧ res = Some r ∧
           let sc := Response_StatusCode r in
           (sc = 401 ∧ e = AuthenticationError) ∨
           (sc = 404 ∧ e = NotFoundError name) ∨
           (sc ≠ 200 ∧ sc ≠ 401 ∧ sc ≠ 404 ∧ e = UnexpectedStatusError sc))) ∧
  (∀ c ctx name inv req res err v e,
     InvokeAsync_request c ctx name inv = Returns (Some req) →
     client c req = (res, err) →
     outcome (InvokeAsync c ctx name inv) = Returns (v, Some e) →
     (∃ cause, err = Some cause ∧
               e = TransportError cause ("unable to invoke function " +:+ name)) ∨
     (∃ r, err = None ∧ res = Some r ∧
           let sc := Response_StatusCode r in
           (sc = 401 ∧ e = AuthenticationError) ∨
           (sc = 404 ∧ e = NotFoundError name) ∨
           (sc ≠ 202 ∧ sc ≠ 401 ∧ sc ≠ 404 ∧ e = UnexpectedStatusError sc))) ∧
  (∀ c ctx req res err v e,
     HasNamespaceSupport_request c ctx = Returns (Some req) →
     client c req = (res, err) →
     outcome (HasNamespaceSupport c ctx) = Returns (v, Some e) →
     (∃ cause, err = Some cause ∧
               e = TransportError cause "unable to determine namespace support") ∨
     (∃ r, err = None ∧ res = Some r ∧
           Response_StatusCode r = 401 ∧ e = AuthenticationError)) ∧
  (∀ c ctx req res err v e,
     GetNamespaces_request c ctx = Returns (Some req) →
     client c req = (res, err) →
     outcome (GetNamespaces c ctx) = Returns (v, Some e) →
     (∃ cause, err = Some cause ∧
               e = TransportError cause "unable to obtain namespaces") ∨
     (∃ r b, err = None ∧ res = Some r ∧ Response_Body r = Some b ∧
             snd (json_Unmarshal_strings (content b)) ≠ None ∧
             Response_StatusCode r = 401 ∧ e = AuthenticationError)) ∧
  (∀ c ctx namespace req res err v e,
     GetFunctions_request c ctx namespace = Returns (Some req) →
     client c req = (res, err) →
     outcome (GetFunctions c ctx namespace) = Returns (v, Some e) →
     (∃ cause, err = Some cause ∧
               e = TransportError cause "unable to obtain functions") ∨
     (∃ r b, err = None ∧ res = Some r ∧ Response_Body r = Some b ∧
             snd (json_Unmarshal_functions (content b)) ≠ None ∧
             let sc := Response_StatusCode r in
             (sc = 401 ∧ e = AuthenticationError) ∨
             (sc ≠ 401 ∧ e = UnexpectedStatusError sc))).
Proof.
  split_and!; intros until e; intros Hreq Hdo; run_op Hreq Hdo;
    destruct err as [cause|];
    [ intros [= <- <-]; left; eauto | destruct res as [[sc [b|]]|]
    | intros [= <- <-]; left; eauto | destruct res as [[sc [b|]]|]
    | intros [= <- <-]; left; eauto | destruct res as [[sc [b|]]|]
    | intros [= <- <-]; left; eauto | destruct res as [[sc [b|]]|]
    | intros [= <- <-]; left; eauto | destruct res as [[sc [b|]]|] ];
    crack; intros Heq; simplify_eq; right;
    repeat match goal with E : json_Unmarshal_strings _ = _ |- _ => revert E
                         | E : json_Unmarshal_functions _ = _ |- _ => revert E end;
    intros; do 2 eexists; cbn;
    repeat match goal with E : _ = (_, _) |- _ => rewrite E end; cbn;
    naive_solver.
Qed.

End Soundness.

(** ** What the operations do not look at *)

Section Blind.
Context `{GoLib}.

Ltac same_request request' request :=
  unfold outcome, InvokeSync, InvokeAsync, HasNamespaceSupport,
    GetNamespaces, GetFunctions, mbind, M_bind, lift;
  change request' with request;
  destruct request as [[req|]|p]; [| reflexivity | reflexivity ];
  unfold Client_Do, without_read_errors; cbn;
  match goal with |- context [?cl req] =>
    destruct (cl req) as [[[sc [b|]]|] [e|]] end;
  finish_m.

(** X9. A read error of the response body is never reported, by any
    operation: the outcome is the one for the same bytes followed by
    EOF. *)
Theorem read_errors_are_dropped cl creds u ctx :
  (∀ name inv,
     outcome (InvokeSync (NewClient (without_read_errors cl) creds u) ctx name inv)
       = outcome (InvokeSync (NewClient cl creds u) ctx name inv)) ∧
  (∀ name inv,
     outcome (InvokeAsync (NewClient (without_read_errors cl) creds u) ctx name inv)
       = outcome (InvokeAsync (NewClient cl creds u) ctx name inv)) ∧
  outcome (HasNamespaceSupport (NewClient (without_read_errors cl) creds u) ctx)
    = outcome (HasNamespaceSupport (NewClient cl creds u) ctx) ∧
  outcome (GetNamespaces (NewClient (without_read_errors cl) creds u) ctx)
    = outcome (GetNamespaces (NewClient cl creds u) ctx) ∧
  (∀ namespace,
     outcome (GetFunctions (NewClient (without_read_errors cl) creds u) ctx namespace)
       = outcome (GetFunctions (NewClient cl creds u) ctx namespace)).
Proof.
  split_and!.
  - intros name inv.
    same_request
      (InvokeSync_request (NewClient (without_read_errors cl) creds u) ctx name inv)
      (InvokeSync_request (NewClient cl creds u) ctx name inv).
  - intros name inv.
    same_request
      (InvokeAsync_request (NewClient (without_read_errors cl) creds u) ctx name inv)
      (InvokeAsync_request (NewClient cl creds u) ctx name inv).
  - same_request
      (HasNamespaceSupport_request (NewClient (without_read_errors cl) creds u) ctx)
      (HasNamespaceSupport_request (NewClient cl creds u) ctx).
  - same_request
      (GetNamespaces_request (NewClient (without_read_errors cl) creds u) ctx)
      (GetNamespaces_request (NewClient cl creds u) ctx).
  - intros namespace.
    same_request
      (GetFunctions_request (NewClient (without_read_errors cl) creds u) ctx namespace)
      (GetFunctions_request (NewClient cl creds u) ctx namespace).
Qed.

(** X10. [InvokeAsync] never looks at the body: two responses with the same
    status give the same outcome.  So does [HasNamespaceSupport] on any
    status but 200. *)
Theorem body_is_ignored cl1 cl2 creds u ctx :
  (∀ name inv req res1 res2,
     InvokeAsync_request (NewClient cl1 creds u) ctx name inv = Returns (Some req) →
     cl1 req = (Some res1, None) → cl2 req = (Some res2, None) →
     Response_StatusCode res1 = Response_StatusCode res2 →
     outcome (InvokeAsync (NewClient cl1 creds u) ctx name inv)
       = outcome (InvokeAsync (NewClient cl2 creds u) ctx name inv)) ∧
  (∀ req res1 res2,
     HasNamespaceSupport_request (NewClient cl1 creds u) ctx = Returns (Some req) →
     cl1 req = (Some res1, None) → cl2 req = (Some res2, None) →
     Response_StatusCode res1 = Response_StatusCode res2 →
     Response_StatusCode res1 ≠ 200 →
     outcome (HasNamespaceSupport (NewClient cl1 creds u) ctx)
       = outcome (HasNamespaceSupport (NewClient cl2 creds u) ctx)).
Proof.
  split.
  - intros name inv req [sc1 b1] [sc2 b2] Hreq H1 H2 Hsc. cbn in Hsc. subst sc2.
    assert (InvokeAsync_request (NewClient cl2 creds u) ctx name inv = Returns (Some req))
      as Hreq2 by exact Hreq.
    unfold outcome, InvokeAsync, mbind, M_bind, lift. rewrite Hreq, Hreq2.
    unfold Client_Do. cbn. rewrite H1, H2. destruct b1, b2; finish_m.
  - intros req [sc1 b1] [sc2 b2] Hreq H1 H2 Hsc Hne. cbn in Hsc, Hne. subst sc2.
    assert (HasNamespaceSupport_request (NewClient cl2 creds u) ctx = Returns (Some req))
      as Hreq2 by exact Hreq.
    unfold outcome, HasNamespaceSupport, mbind, M_bind, lift. rewrite Hreq, Hreq2.
    unfold Client_Do. cbn. rewrite H1, H2.
    destruct b1, b2; eval_m; status; by destruct (sc1 =? 401).
Qed.

(** X11. The probe and the listing agree: on a 200 response with a body,
    [HasNamespaceSupport] says true exactly when [GetNamespaces], which
    sends the same request, returns a list that is not empty. *)
Theorem probe_agrees_with_listing c ctx req res b :
  HasNamespaceSupport_request c ctx = Returns (Some req) →
  client c req = (Some res, None) →
  Response_StatusCode res = 200 →
  Response_Body res = Some b →
  GetNamespaces_request c ctx = HasNamespaceSupport_request c ctx ∧
  ∃ namespaces,
    outcome (GetNamespaces c ctx) = Returns (namespaces, None) ∧
    outcome (HasNamespaceSupport c ctx)
      = Returns (bool_decide (namespaces ≠ []), None).
Proof.
  intros Hreq Hdo Hsc Hb. split; [reflexivity|].
  assert (GetNamespaces_request c ctx = Returns (Some req)) as Hreq' by exact Hreq.
  destruct res as [sc body]; cbn in *; subst.
  exists (fst (json_Unmarshal_strings (content b))). split.
  - run_op Hreq' Hdo. eval_m.
    by destruct (json_Unmarshal_strings (content b)) as [ns [e|]].
  - run_op Hreq Hdo. eval_m.
    destruct (json_Unmarshal_strings (content b)) as [[|n ns] e]; cbn.
    + by rewrite bool_decide_eq_false_2 by lia.
    + by rewrite bool_decide_eq_true_2 by lia.
Qed.

End Blind.

(** ** The status errors can be told apart *)

(** X12. The three status errors never coincide, and the not-found error
    determines the function name as the unexpected-status error determines
    the status code. *)
Theorem status_errors_distinguishable :
  (∀ name, AuthenticationError ≠ NotFoundError name) ∧
  (∀ sc, AuthenticationError ≠ UnexpectedStatusError sc) ∧
  (∀ name sc, NotFoundError name ≠ UnexpectedStatusError sc) ∧
  (∀ a b, NotFoundError a = NotFoundError b ↔ a = b) ∧
  (∀ a b, UnexpectedStatusError a = UnexpectedStatusError b ↔ a = b).
Proof.
  split_and!; try (intros; intros [=]; done).
  - intros a b. split; [apply NotFoundError_inj | by intros ->].
  - intros a b. split; [apply UnexpectedStatusError_inj | by intros ->].
Qed.

(** ** The namespace as the gateway reads it *)

Lemma QueryEscape_no_semicolon (s : string) :
  occurrences ";" (QueryEscape s) = 0%nat.
Proof.
  induction s as [|a s IH]; [done|].
  destruct a as [[] [] [] [] [] [] [] []]; cbn; rewrite ?IH; done.
Qed.

Lemma upperhex_unhex (k : N) :
  (k < 16)%N → ishex (upperhex k) = true ∧ unhex (upperhex k) = k.
Proof.
  intros Hk. destruct k as [|p]; [by vm_compute|].
  do 5 (try destruct p as [p|p|]); try lia; by vm_compute.
Qed.

(** Unescaping undoes escaping. *)
Lemma QueryUnescape_QueryEscape (s : string) :
  QueryUnescape (QueryEscape s) = Some s.
Proof.
  induction s as [|a s IH]; [done|]. cbn [QueryEscape].
  destruct (shouldEscape a) eqn:Hesc.
  - destruct (N.eqb_spec (N_of_ascii a) 32) as [Hsp|Hsp].
    + cbn. rewrite IH. cbn. f_equal. f_equal.
      rewrite <- (ascii_N_embedding a), Hsp. reflexivity.
    + pose proof (N_ascii_bounded a) as Hb.
      destruct (upperhex_unhex (N_of_ascii a / 16)) as [Hh1 Hu1].
      { apply N.Div0.div_lt_upper_bound. lia. }
      destruct (upperhex_unhex (N_of_ascii a mod 16)) as [Hh2 Hu2].
      { apply N.mod_lt. lia. }
      cbn [QueryUnescape]. change (Ascii.eqb "%" "%") with true. cbn match.
      rewrite Hh1, Hh2, Hu1, Hu2. cbn [andb]. rewrite IH. cbn. f_equal. f_equal.
      rewrite <- (N.div_mod (N_of_ascii a) 16) by lia. apply ascii_N_embedding.
  - cbn [QueryUnescape].
    destruct (Ascii.eqb_spec a "%") as [->|_]; [by vm_compute in Hesc|].
    destruct (Ascii.eqb_spec a "+") as [->|_]; [by vm_compute in Hesc|].
    by rewrite IH.
Qed.

Lemma split_on_absent (sep : ascii) (s : string) :
  occurrences sep s = 0%nat → split_on sep s = [s].
Proof.
  induction s as [|a s IH]; simpl; [done|].
  destruct (Ascii.eqb a sep); simpl; [done|]. intros E. by rewrite (IH E).
Qed.

Lemma cut_absent (sep : ascii) (s : string) :
  occurrences sep s = 0%nat → cut sep s = (s, EmptyString).
Proof.
  induction s as [|a s IH]; simpl; [done|].
  destruct (Ascii.eqb a sep); simpl; [done|]. intros E. by rewrite (IH E).
Qed.

Lemma ParseQuery_of_namespace (namespace : string) :
  ref_ParseQuery ("namespace" +:+ "=" +:+ QueryEscape namespace)
    = {["namespace" := [namespace]]}.
Proof.
  destruct (QueryEscape_no_separator namespace) as [E1 E2].
  pose proof (QueryEscape_no_semicolon namespace) as E3.
  unfold ref_ParseQuery.
  rewrite split_on_absent by (rewrite !occurrences_app, E2; reflexivity).
  cbn [foldl].
  rewrite bool_decide_eq_false_2 by (rewrite !occurrences_app, E3; simpl; lia).
  rewrite bool_decide_eq_false_2 by done.
  change (cut "=" ("namespace" +:+ "=" +:+ QueryEscape namespace))
    with ("namespace", QueryEscape namespace).
  cbv beta iota.
  change (QueryUnescape "namespace") with (Some "namespace").
  rewrite QueryUnescape_QueryEscape.
  unfold Values_Add. rewrite lookup_total_empty. by rewrite insert_empty.
Qed.

Section Gateway.
Context `{GoLib}.

(** X13. The namespace survives the trip: for a base URL without a query of
    its own, parsing the query [GetFunctions] sends, the way the gateway
    parses it, gives the one parameter [namespace] with the value the
    caller passed, whatever bytes are in it. *)
Theorem namespace_reaches_gateway c e namespace u :
  url_Parse (url c +:+ "/system/functions") = inl u →
  URL_RawQuery u = EmptyString →
  namespace ≠ EmptyString →
  ∃ req,
    wire (final (GetFunctions c (liveContext e) namespace)) = [req] ∧
    ref_ParseQuery (URL_RawQuery (Request_URL req)) = {["namespace" := [namespace]]}.
Proof.
  intros Hu Hq Hns. rewrite GetFunctions_wire.
  unfold GetFunctions_request, http_NewRequestWithContext. rewrite Hu.
  assert (bool_decide (0 < String.length namespace)%nat = true) as ->.
  { apply bool_decide_eq_true_2. destruct namespace; [done | simpl; lia]. }
  destruct (credentials c); cbn; eexists; (split; [reflexivity|]); cbn;
    unfold URL_Query; rewrite Hq, url_ParseQuery_empty, Values_Encode_one;
    apply ParseQuery_of_namespace.
Qed.

End Gateway.

(** ** A list of strings comes back as it is *)

Lemma decode_strings_of_strings (l : list string) :
  decode_strings (JArray (JString <$> l)) = (l, None).
Proof.
  unfold decode_strings. f_equal.
  - induction l as [|s l IH]; [done|]. cbn. f_equal. exact IH.
  - induction l as [|s l IH]; [done|]. exact IH.
Qed.

Section Listing.
Context `{GoLib}.

(** X14. When the body is a JSON array of string literals, [GetNamespaces]
    returns their values, all of them and in their order, with no error,
    whatever the status of the response. *)
Theorem GetNamespaces_returns_the_strings c ctx req res b l :
  GetNamespaces_request c ctx = Returns (Some req) →
  client c req = (Some res, None) →
  Response_Body res = Some b →
  json_parse (content b) = Some (JArray (JString <$> l)) →
  outcome (GetNamespaces c ctx) = Returns (l, None).
Proof.
  intros Hreq Hdo Hb Hp. run_op Hreq Hdo.
  destruct res as [sc body]; cbn in *; subst body. eval_m.
  unfold json_Unmarshal_strings. rewrite Hp, decode_strings_of_strings.
  reflexivity.
Qed.

End Listing.

(** ** The further properties at concrete calls *)

Lemma Invoke_request_on_wire_witness :
  wire (final (InvokeSync (H:=refLib)
                 (NewClient (gateway_says 200 "pong") (Some admin) gateway_url)
                 Background "echo" echo_invocation))
    = [mkRequest Background "POST"
         (mkURL EmptyString EmptyString "http://gateway:8080/function/echo"
                EmptyString EmptyString)
         (<["Authorization" := ["Basic YWRtaW46c2VjcmV0"]]>
            (<["Content-Encoding" := [EmptyString]]>
               (<["Content-Type" := ["text/plain"]]> ∅)))
         (Some (list_byte_of_string "ping"))].
Proof.
  apply (proj1 (@Invoke_request_on_wire refLib
                  (NewClient (gateway_says 200 "pong") (Some admin) gateway_url)
                  None "echo" echo_invocation)).
  reflexivity.
Defined.

Lemma discovery_request_on_wire_witness :
  wire (final (GetNamespaces (H:=refLib)
                 (NewClient (gateway_json 200 "[]") None gateway_url) Background))
    = [mkRequest Background "GET"
         (mkURL EmptyString EmptyString "http://gateway:8080/system/namespaces"
                EmptyString EmptyString)
         ∅ None].
Proof.
  apply (proj1 (@discovery_request_on_wire refLib
                  (NewClient (gateway_json 200 "[]") None gateway_url) None)).
  reflexivity.
Defined.

Lemma no_panic_under_contract_witness :
  ∃ v, outcome (GetFunctions (H:=refLib)
                  (NewClient (gateway_says 503 "busy") None gateway_url)
                  Background "fn") = Returns v.
Proof.
  destruct (@no_panic_under_contract refLib) as (_ & _ & _ & _ & Hf).
  eapply Hf; reflexivity.
Defined.


Lemma error_comes_with_zero_value_witness :
  outcome (GetNamespaces (H:=refLib)
             (NewClient (gateway_says 401 "invalid credentials") None gateway_url)
             Background)
    = Returns ([], Some AuthenticationError) ∧
  ([] : list string) = [].
Proof.
  split; [reflexivity|].
  destruct (@error_comes_with_zero_value refLib) as (_ & _ & _ & Hlist & _).
  eapply (Hlist (NewClient (gateway_says 401 "invalid credentials") None gateway_url)
                Background [] AuthenticationError).
  reflexivity.
Defined.

Lemma errors_tell_what_happened_witness :
  (∃ cause, (None : option error) = Some cause ∧
            NotFoundError "echo"
              = TransportError cause ("unable to invoke function " +:+ "echo")) ∨
  (∃ r, (None : option error) = None ∧
        Some (mkResponse 404 (Some (mkBodyStream (list_byte_of_string "gone") None)))
          = Some r ∧
        ((Response_StatusCode r = 401 ∧ NotFoundError "echo" = AuthenticationError) ∨
         (Response_StatusCode r = 404 ∧ NotFoundError "echo" = NotFoundError "echo") ∨
         (Response_StatusCode r ≠ 200 ∧ Response_StatusCode r ≠ 401 ∧
          Response_StatusCode r ≠ 404 ∧
          NotFoundError "echo" = UnexpectedStatusError (Response_StatusCode r)))).
Proof.
  destruct (@errors_tell_what_happened refLib) as (Hsync & _).
  eapply (Hsync (NewClient (gateway_says 404 "gone") None gateway_url)
                Background "echo" echo_invocation); reflexivity.
Defined.

Lemma body_is_ignored_witness :
  outcome (InvokeAsync (H:=refLib)
             (NewClient (gateway_says 202 "queued") None gateway_url)
             Background "echo" echo_invocation)
    = outcome (InvokeAsync (H:=refLib)
                 (NewClient (gateway_says 202 "") None gateway_url)
                 Background "echo" echo_invocation).
Proof.
  eapply (proj1 (@body_is_ignored refLib (gateway_says 202 "queued")
                   (gateway_says 202 "") None gateway_url Background));
    reflexivity.
Defined.

Lemma probe_agrees_with_listing_witness :
  ∃ namespaces,
    outcome (GetNamespaces (H:=refLib)
               (NewClient (gateway_json 200 "['prod']") None gateway_url) Background)
      = Returns (namespaces, None) ∧
    outcome (HasNamespaceSupport (H:=refLib)
               (NewClient (gateway_json 200 "['prod']") None gateway_url) Background)
      = Returns (bool_decide (namespaces ≠ []), None).
Proof.
  eapply (@probe_agrees_with_listing refLib
            (NewClient (gateway_json 200 "['prod']") None gateway_url) Background);
    reflexivity.
Defined.

Lemma namespace_reaches_gateway_witness :
  ∃ req,
    wire (final (GetFunctions (H:=refLib)
                   (NewClient (gateway_json 200 "[]") None gateway_url)
                   Background "a&b=c d"))
      = [req] ∧
    ref_ParseQuery (URL_RawQuery (Request_URL req)) = {["namespace" := ["a&b=c d"]]}.
Proof.
  eapply (@namespace_reaches_gateway refLib
            (NewClient (gateway_json 200 "[]") None gateway_url) None "a&b=c d");
    [reflexivity | reflexivity | discriminate].
Defined.

Lemma GetNamespaces_returns_the_strings_witness :
  outcome (GetNamespaces (H:=refLib)
             (NewClient (gateway_json 500 "['a','b']") None gateway_url) Background)
    = Returns (["a"; "b"], None).
Proof.
  eapply (@GetNamespaces_returns_the_strings refLib
            (NewClient (gateway_json 500 "['a','b']") None gateway_url) Background
            _ _ _ ["a"; "b"]);
    reflexivity.
Defined.
